(** * Expense tracker (src/app/index.tsx): a model of the component's state
    handlers and of its persistence, with the properties of its specification.

    The component keeps a list of trackers in React state; every handler
    computes the next state from the current one, and an effect mirrors the
    list to the device store as one JSON document.  Handlers are modelled as
    functions on the state record.  What they take from outside is explicit:
    the system clock ([Date.now()], [new Date()]) is a sequence of readings
    threaded through a small state monad, and the order in which the engine's
    [sort] passes elements to a comparator is a parameter.  Amounts are
    IEEE-754 binary64 values, strings are sequences of bytes, identifiers and
    time values are integers.  The screen is the tree of its texts and
    controls, each control with the call that its callback makes; the two
    formatters of the library that make its texts are parameters. *)

From Stdlib Require Import ZArith List String Ascii Bool Lia Permutation Sorted.
From Stdlib Require Import Floats.SpecFloat.
From Stdlib Require DecimalString DecimalZ DecimalPos FinFun.
Import ListNotations.
Local Open Scope Z_scope.

(* ================================================================== *)
(** ** JavaScript numbers *)

Module Number.

(** A JS number is a binary64 float; NaN carries no payload. *)
Definition number : Type := spec_float.

Definition prec : Z := 53.
Definition emax : Z := 1024.

Definition NaN : number := S754_nan.
Definition zero : number := S754_zero false.

(** [x + y] on numbers, round to nearest even. *)
Definition add (x y : number) : number := SFadd prec emax x y.

(** The number nearest to an integer. *)
Definition of_Z (z : Z) : number := binary_normalize prec emax z 0 false.

(** The number nearest to [m / d], for [d > 0]. *)
Definition of_ratio (neg : bool) (m d : positive) : number :=
  SFdiv prec emax (S754_finite neg m 0) (S754_finite false d 0).

End Number.

Abbreviation number := Number.number.

(** The values the [amount] field of an expense holds at run time: a number,
    or [null] once a non-finite amount has gone through the store (JSON has no
    NaN and no Infinity). *)
Inductive JSValue : Type :=
| JSNumber (x : number)
| JSNull.

(** ToNumber, on these values: [null] converts to [+0]. *)
Definition ToNumber (v : JSValue) : number :=
  match v with
  | JSNumber x => x
  | JSNull => Number.zero
  end.

(** A string is falsy exactly when it is empty ([!s]). *)
Definition falsy (s : string) : bool :=
  match s with
  | EmptyString => true
  | String _ _ => false
  end.

(* ================================================================== *)
(** ** The environment: the system clock and the engine's sort *)

(** What the component takes from its environment.  The clock is the
    sequence of its successive readings, in milliseconds since the epoch.
    The engine's [sort] hands the comparator two elements of the array in an
    order of its own choice: the earlier element first, or the later one
    first. *)
Record World : Type := mkWorld {
  clock : nat -> Z;
  laterFirst : bool
}.

(** A computation in a world carries the index of the next clock reading. *)
Definition Eff (A : Type) : Type := World -> nat -> A * nat.

Definition ret {A : Type} (a : A) : Eff A := fun _ n => (a, n).

Definition bind {A B : Type} (m : Eff A) (k : A -> Eff B) : Eff B :=
  fun w n => let (a, n') := m w n in k a w n'.

Notation "x <- m ;; k" := (bind m (fun x => k))
  (at level 61, m at next level, right associativity).

(** The engine's order of the comparator's arguments. *)
Definition argumentOrder : Eff bool := fun w n => (laterFirst w, n).

(** [Date.now()]: one reading of the clock. *)
Definition Date_now : Eff Z := fun w n => (clock w n, S n).

(** A [Date] object is its time value.  The component only builds dates from
    the clock, from the date picker and from the ISO strings it stored, so the
    invalid date (time value NaN) is left out. *)
Definition Date : Type := Z.

Definition getTime (d : Date) : Z := d.

(** [new Date()]: the date of one clock reading. *)
Definition new_Date : Eff Date := Date_now.

Fixpoint mapM {A B : Type} (f : A -> Eff B) (l : list A) : Eff (list B) :=
  match l with
  | [] => ret []
  | x :: l' => y <- f x ;; ys <- mapM f l' ;; ret (y :: ys)
  end.

(* ================================================================== *)
(** ** Array.prototype.sort *)

(** [sort] is stable.  The model is the insertion sort: each element, from
    the last to the first, is put in front of the sorted rest and moves to the
    right past the elements that the comparator places before it.  The
    comparator is an effectful function, as in the source (the loader's
    comparator reads the clock).  With a comparator that is a consistent
    ordering every stable sort returns the same array ([sort_pure_unique]
    below), whatever the comparisons it makes.  With a comparator that reads
    the clock, the comparisons and the readings are those of this algorithm
    and of no other: what holds of the loaded order on every engine is stated
    with [Array_sort_on] below. *)
Section ArraySort.

Context {A : Type}.
Variable comparefn : A -> A -> Eff Z.

(** [x] comes from before the elements of [l] in the array: it stays in
    front of [y] when the comparator's answer for the two is not positive. *)
Fixpoint insert (x : A) (l : list A) : Eff (list A) :=
  match l with
  | [] => ret [x]
  | y :: l' =>
      v <- comparefn x y ;;
      if v <=? 0 then ret (x :: y :: l')
      else (r <- insert x l' ;; ret (y :: r))
  end.

Fixpoint insertion_sort (l : list A) : Eff (list A) :=
  match l with
  | [] => ret []
  | x :: l' => s <- insertion_sort l' ;; insert x s
  end.

End ArraySort.

(** The comparator as an engine consults it that passes the later element
    first: the earlier element [x] stays in front of [y] unless the answer
    for [y] and [x] is negative. *)
Definition mirrored {A : Type} (comparefn : A -> A -> Eff Z) : A -> A -> Eff Z :=
  fun x y => v <- comparefn y x ;; ret (- v).

Definition Array_sort {A : Type} (comparefn : A -> A -> Eff Z) (l : list A)
  : Eff (list A) :=
  later <- argumentOrder ;;
  insertion_sort (if later : bool then mirrored comparefn else comparefn) l.

(** The same sort with a comparator that has no effect. *)
Section PureSort.

Context {A : Type}.
Variable compare : A -> A -> Z.

Fixpoint insert_pure (x : A) (l : list A) : list A :=
  match l with
  | [] => [x]
  | y :: l' => if compare x y <=? 0 then x :: y :: l' else y :: insert_pure x l'
  end.

Definition sort_pure (l : list A) : list A := fold_right insert_pure [] l.

End PureSort.

(** The order of the keys of two elements. *)
Definition key_le {A : Type} (key : A -> Z) (a b : A) : Prop := key a <= key b.

(** *** The sort of an engine, whatever its algorithm *)

(** Which pairs an engine's [sort] hands to the comparator, how often and in
    which order, is the engine's affair.  What every engine has in common is
    that it learns of the elements only what the comparator answers.  A
    computation of that kind ends with a result, or asks for the comparator's
    answer on two elements and goes on from that answer. *)
Inductive Comparing (A R : Type) : Type :=
| Result (r : R)
| Ask (x y : A) (next : Z -> Comparing A R).

Arguments Result {A R} r.
Arguments Ask {A R} x y next.

(** An engine's [sort]: for arrays of every type of element, the comparisons
    it makes and the array it returns. *)
Definition Engine : Type := forall A : Type, list A -> Comparing A (list A).

(** The computation run with a comparator, which may read the clock at each
    call. *)
Fixpoint consult {A R : Type} (c : Comparing A R) (comparefn : A -> A -> Eff Z)
  : Eff R :=
  match c with
  | Result r => ret r
  | Ask x y next => v <- comparefn x y ;; consult (next v) comparefn
  end.

(** The computation run with a comparator that has no effect. *)
Fixpoint answer_with {A R : Type} (c : Comparing A R) (compare : A -> A -> Z) : R :=
  match c with
  | Result r => r
  | Ask x y next => answer_with (next (compare x y)) compare
  end.

(** [arr.sort(comparefn)] on a given engine. *)
Definition Array_sort_on (engine : Engine) {A : Type} (comparefn : A -> A -> Eff Z)
           (l : list A) : Eff (list A) :=
  consult (engine A l) comparefn.

(** One computation after another. *)
Fixpoint and_then {A R S : Type} (c : Comparing A R) (k : R -> Comparing A S)
  : Comparing A S :=
  match c with
  | Result r => k r
  | Ask x y next => Ask x y (fun v => and_then (next v) k)
  end.

(** The insertion sort above as an engine, for either order of the
    comparator's arguments. *)
Fixpoint insert_asking {A : Type} (later : bool) (x : A) (l : list A)
  : Comparing A (list A) :=
  match l with
  | [] => Result [x]
  | y :: l' =>
      let go := fun v : Z =>
                  if v <=? 0 then Result (x :: y :: l')
                  else and_then (insert_asking later x l') (fun r => Result (y :: r)) in
      if later then Ask y x (fun v => go (- v)) else Ask x y go
  end.

Fixpoint insertion_asking {A : Type} (later : bool) (l : list A) : Comparing A (list A) :=
  match l with
  | [] => Result []
  | x :: l' => and_then (insertion_asking later l') (insert_asking later x)
  end.

Definition insertion_engine (later : bool) : Engine :=
  fun A l => insertion_asking later l.

(* ================================================================== *)
(** ** Data model *)

(** An expense.  Identifiers are clock readings, hence integers.  The amount
    is declared a number; the field is given the values it takes at run time
    ([JSValue]). *)
Record Expense : Type := mkExpense {
  expense_id : Z;
  title : string;
  amount : JSValue
}.

(** The two values of the type of [status]. *)
Definition InProgress : string := "In progress ⚠️".
Definition Cleared : string := "Cleared ✅".

(** A tracker.  The status is kept as the string that the code compares and
    stores; that it is one of the two values of its type is stated as an
    invariant ([valid_status] below) and not built into the record. *)
Record ExpenseTracker : Type := mkTracker {
  id : Z;
  name : string;
  date : Date;
  expenses : list Expense;
  status : string;
  expanded : bool
}.

(** The component's state ([useState] cells). *)
Record App : Type := mkApp {
  trackers : list ExpenseTracker;
  trackerName : string;
  trackerDate : option Date;
  showDatePicker : bool;
  expenseTitle : string;
  expenseAmount : string
}.

Definition setTrackers (ts : list ExpenseTracker) (st : App) : App :=
  mkApp ts (trackerName st) (trackerDate st) (showDatePicker st)
        (expenseTitle st) (expenseAmount st).

Definition setTrackerName (s : string) (st : App) : App :=
  mkApp (trackers st) s (trackerDate st) (showDatePicker st)
        (expenseTitle st) (expenseAmount st).

Definition setTrackerDate (d : option Date) (st : App) : App :=
  mkApp (trackers st) (trackerName st) d (showDatePicker st)
        (expenseTitle st) (expenseAmount st).

Definition setExpenseTitle (s : string) (st : App) : App :=
  mkApp (trackers st) (trackerName st) (trackerDate st) (showDatePicker st)
        s (expenseAmount st).

Definition setExpenseAmount (s : string) (st : App) : App :=
  mkApp (trackers st) (trackerName st) (trackerDate st) (showDatePicker st)
        (expenseTitle st) s.

(** The initial state of the component (lines 23-28). *)
Definition initial : Eff App :=
  d <- new_Date ;;
  ret (mkApp [] "" (Some d) false "" "").

(** The handler of the date picker (lines 129-132): a chosen date is kept. *)
Definition onDateChange (selectedDate : option Date) (st : App) : App :=
  let st := mkApp (trackers st) (trackerName st) (trackerDate st) false
                  (expenseTitle st) (expenseAmount st) in
  match selectedDate with
  | Some d => setTrackerDate (Some d) st
  | None => st
  end.

(** Copies of a tracker with one field replaced ([{ ...tracker, f: v }]). *)
Definition with_expenses (es : list Expense) (t : ExpenseTracker) : ExpenseTracker :=
  mkTracker (id t) (name t) (date t) es (status t) (expanded t).

Definition with_status (s : string) (t : ExpenseTracker) : ExpenseTracker :=
  mkTracker (id t) (name t) (date t) (expenses t) s (expanded t).

Definition with_expanded (b : bool) (t : ExpenseTracker) : ExpenseTracker :=
  mkTracker (id t) (name t) (date t) (expenses t) (status t) b.

(* ================================================================== *)
(** ** parseFloat *)

(** Strings are sequences of UTF-8 bytes. *)
Definition bytes (l : list nat) : string :=
  fold_right (fun n s => String (ascii_of_nat n) s) EmptyString l.

Fixpoint strip_prefix (p s : string) : option string :=
  match p with
  | EmptyString => Some s
  | String c p' =>
      match s with
      | String d s' => if Ascii.eqb c d then strip_prefix p' s' else None
      | EmptyString => None
      end
  end.

(** StrWhiteSpaceChar: the white space and line terminator code points. *)
Definition StrWhiteSpaceChar : list string :=
  map bytes
    ([ [9]; [10]; [11]; [12]; [13]; [32];
      [194; 160];                       (* U+00A0 *)
      [225; 154; 128];                  (* U+1680 *)
      [226; 128; 128]; [226; 128; 129]; [226; 128; 130]; [226; 128; 131];
      [226; 128; 132]; [226; 128; 133]; [226; 128; 134]; [226; 128; 135];
      [226; 128; 136]; [226; 128; 137]; [226; 128; 138];   (* U+2000..U+200A *)
      [226; 128; 168]; [226; 128; 169]; (* U+2028, U+2029 *)
      [226; 128; 175];                  (* U+202F *)
      [226; 129; 159];                  (* U+205F *)
      [227; 128; 128];                  (* U+3000 *)
      [239; 187; 191] ])%nat.           (* U+FEFF *)

Fixpoint strip_any (ps : list string) (s : string) : option string :=
  match ps with
  | [] => None
  | p :: ps' =>
      match strip_prefix p s with
      | Some s' => Some s'
      | None => strip_any ps' s
      end
  end.

Fixpoint TrimStart_fuel (fuel : nat) (s : string) : string :=
  match fuel with
  | O => s
  | S fuel' =>
      match strip_any StrWhiteSpaceChar s with
      | Some s' => TrimStart_fuel fuel' s'
      | None => s
      end
  end.

(** TrimString(s, start); each step removes at least one byte. *)
Definition TrimStart (s : string) : string := TrimStart_fuel (String.length s) s.

Definition is_digit (c : ascii) : bool :=
  (48 <=? nat_of_ascii c)%nat && (nat_of_ascii c <=? 57)%nat.

Definition digit_value (c : ascii) : Z := Z.of_nat (nat_of_ascii c) - 48.

(** DecimalDigits, read greedily: the value so far, the number of digits
    read, and the rest of the input. *)
Fixpoint read_digits (s : string) (acc count : Z) : Z * Z * string :=
  match s with
  | EmptyString => (acc, count, s)
  | String c s' =>
      if is_digit c then read_digits s' (10 * acc + digit_value c) (count + 1)
      else (acc, count, s)
  end.

(** ExponentPart: [e] or [E], an optional sign, at least one digit; an
    incomplete exponent is not part of the literal. *)
Definition exponent_part (s : string) : Z :=
  match s with
  | String c s1 =>
      if Ascii.eqb c "e" || Ascii.eqb c "E" then
        let '(neg, s2) :=
          match s1 with
          | String "-" s2 => (true, s2)
          | String "+" s2 => (false, s2)
          | _ => (false, s1)
          end in
        let '(v, n, _) := read_digits s2 0 0 in
        if n =? 0 then 0 else if neg then - v else v
      else 0
  | EmptyString => 0
  end.

(** The number value of [m * 10^e], with the sign given apart so that a
    negative zero keeps it. *)
Definition decimal_value (neg : bool) (m e : Z) : number :=
  match m with
  | Zpos p =>
      if 0 <=? e then Number.of_Z (cond_Zopp neg (m * 10 ^ e))
      else Number.of_ratio neg p (Z.to_pos (10 ^ (- e)))
  | _ => S754_zero neg
  end.

(** The longest prefix that is a StrUnsignedDecimalLiteral, evaluated. *)
Definition StrUnsignedDecimalLiteral (neg : bool) (s : string) : number :=
  match strip_prefix "Infinity" s with
  | Some _ => S754_infinity neg
  | None =>
      let '(ip, ni, s1) := read_digits s 0 0 in
      let '(m, nf, s2) :=
        match s1 with
        | String "." s1' => read_digits s1' ip 0
        | _ => (ip, 0, s1)
        end in
      if ni + nf =? 0 then Number.NaN
      else decimal_value neg m (exponent_part s2 - nf)
  end.

Definition parseFloat (s : string) : number :=
  match TrimStart s with
  | String "-" t => StrUnsignedDecimalLiteral true t
  | String "+" t => StrUnsignedDecimalLiteral false t
  | t => StrUnsignedDecimalLiteral false t
  end.

(* ================================================================== *)
(** ** Dates as ISO strings *)

Definition msPerDay : Z := 86400000.

(** The largest time value of a Date, in either direction (TimeClip). *)
Definition maxTime : Z := 8640000000000000.

Definition valid_time (t : Z) : Prop := - maxTime <= t <= maxTime.

(** Year, month (1..12) and day of the month of a day number (days since
    1970-01-01) in the proleptic Gregorian calendar, by 400-year eras that
    start on 1 March. *)
Definition civil_from_days (z : Z) : Z * Z * Z :=
  let z := z + 719468 in
  let era := z / 146097 in
  let doe := z - era * 146097 in
  let yoe := (doe - doe / 1460 + doe / 36524 - doe / 146096) / 365 in
  let doy := doe - (365 * yoe + yoe / 4 - yoe / 100) in
  let mp := (5 * doy + 2) / 153 in
  let d := doy - (153 * mp + 2) / 5 + 1 in
  let m := if mp <? 10 then mp + 3 else mp - 9 in
  let y := yoe + era * 400 in
  (if m <=? 2 then y + 1 else y, m, d).

(** MakeDay: the day number of a calendar date. *)
Definition days_from_civil (y m d : Z) : Z :=
  let y := if m <=? 2 then y - 1 else y in
  let era := y / 400 in
  let yoe := y - era * 400 in
  let doy := (153 * (if 2 <? m then m - 3 else m + 9) + 2) / 5 + d - 1 in
  let doe := yoe * 365 + yoe / 4 - yoe / 100 + doy in
  era * 146097 + doe - 719468.

Definition digit_char (d : Z) : ascii := ascii_of_nat (Z.to_nat (48 + d)).

(** [n] in decimal, on exactly [width] digits. *)
Fixpoint pad (width : nat) (n : Z) (rest : string) : string :=
  match width with
  | O => rest
  | S w => pad w (n / 10) (String (digit_char (n mod 10)) rest)
  end.

(** The part of the ISO string after the year: [-MM-DDTHH:mm:ss.sssZ]. *)
Definition ISO_after_year (m d tw : Z) : string :=
  let ms := pad 3 (tw mod 1000) "Z" in
  let sec := pad 2 (tw / 1000 mod 60) (String "." ms) in
  let mi := pad 2 (tw / 60000 mod 60) (String ":" sec) in
  let h := pad 2 (tw / 3600000) (String ":" mi) in
  String "-" (pad 2 m (String "-" (pad 2 d (String "T" h)))).

(** Date.prototype.toISOString: [YYYY-MM-DDTHH:mm:ss.sssZ], the year on six
    signed digits outside 0..9999. *)
Definition toISOString (t : Date) : string :=
  let '(y, m, d) := civil_from_days (t / msPerDay) in
  let tail := ISO_after_year m d (t mod msPerDay) in
  if (0 <=? y) && (y <=? 9999) then pad 4 y tail
  else String (if y <? 0 then "-"%char else "+"%char) (pad 6 (Z.abs y) tail).

(** Exactly [width] decimal digits, read from the front of the input. *)
Fixpoint read_fixed (width : nat) (acc : Z) (s : string) : option (Z * string) :=
  match width with
  | O => Some (acc, s)
  | S w =>
      match s with
      | String c s' =>
          if is_digit c then read_fixed w (10 * acc + digit_value c) s' else None
      | EmptyString => None
      end
  end.

Definition expect (c : ascii) (s : string) : option string :=
  match s with
  | String d s' => if Ascii.eqb c d then Some s' else None
  | EmptyString => None
  end.

Definition read_year (s : string) : option (Z * string) :=
  match s with
  | String "+" s' => read_fixed 6 0 s'
  | String "-" s' =>
      match read_fixed 6 0 s' with
      | Some (y, r) => if y =? 0 then None else Some (- y, r)
      | None => None
      end
  | _ => read_fixed 4 0 s
  end.

Definition andThen {A B : Type} (o : option A) (k : A -> option B) : option B :=
  match o with
  | Some a => k a
  | None => None
  end.

(** The fields after the year, and the time value they make with it. *)
Definition Date_parse_after_year (y : Z) (s : string) : option Z :=
  andThen (expect "-" s) (fun s =>
  andThen (read_fixed 2 0 s) (fun '(m, s) =>
  andThen (expect "-" s) (fun s =>
  andThen (read_fixed 2 0 s) (fun '(d, s) =>
  andThen (expect "T" s) (fun s =>
  andThen (read_fixed 2 0 s) (fun '(h, s) =>
  andThen (expect ":" s) (fun s =>
  andThen (read_fixed 2 0 s) (fun '(mi, s) =>
  andThen (expect ":" s) (fun s =>
  andThen (read_fixed 2 0 s) (fun '(sec, s) =>
  andThen (expect "." s) (fun s =>
  andThen (read_fixed 3 0 s) (fun '(ms, s) =>
  match s with
  | String "Z" EmptyString =>
      if (1 <=? m) && (m <=? 12) && (1 <=? d) && (d <=? 31)
         && (mi <=? 59) && (sec <=? 59)
         && ((h <=? 23) || ((h =? 24) && (mi =? 0) && (sec =? 0) && (ms =? 0))) then
        let t := days_from_civil y m d * msPerDay
                 + h * 3600000 + mi * 60000 + sec * 1000 + ms in
        if (- maxTime <=? t) && (t <=? maxTime) then Some t else None
      else None
  | _ => None
  end)))))))))))).

(** Date.parse on the date-time form that [toISOString] writes, followed by
    TimeClip; [None] is NaN.  A day of the month up to 31 is taken as MakeDay
    takes it, and hour 24 is midnight at the end of the day.  (The other forms
    Date.parse accepts are never written to the store and are not modelled:
    they read as [None] here.) *)
Definition Date_parse (s : string) : option Z :=
  andThen (read_year s) (fun '(y, s) => Date_parse_after_year y s).

(* ================================================================== *)
(** ** The handlers of the component *)

(** The comparator of [addTracker]: [a.date.getTime() - b.date.getTime()].
    Time values are integers of magnitude at most [maxTime]; the difference of
    two of them has the sign of the exact difference. *)
Definition byDate (a b : ExpenseTracker) : Z :=
  getTime (date a) - getTime (date b).

(** [addTracker] (lines 49-62): nothing with an empty name; else the new
    tracker, with the clock for its id and for its date when none is chosen,
    goes to the end of the list, the list is sorted by date, and the form is
    reset. *)
Definition addTracker (st : App) : Eff App :=
  if falsy (trackerName st) then ret st
  else
    now <- Date_now ;;
    d <- match trackerDate st with
         | Some d => ret d
         | None => new_Date
         end ;;
    let newTracker := mkTracker now (trackerName st) d [] InProgress false in
    sorted <- Array_sort (fun a b => ret (byDate a b)) (trackers st ++ [newTracker]) ;;
    today <- new_Date ;;
    ret (setTrackerDate (Some today) (setTrackerName "" (setTrackers sorted st))).

(** [deleteTracker] (lines 66-68). *)
Definition deleteTracker (trackerId : Z) (st : App) : App :=
  setTrackers (filter (fun tracker => negb (id tracker =? trackerId)) (trackers st)) st.

(** [addExpense] (lines 71-80): the expense object, and with it the reading
    of the clock for its id, is built inside the callback of [map], once for
    each tracker of the given id. *)
Definition addExpense (trackerId : Z) (title amount : string) (st : App) : Eff App :=
  if falsy title || falsy amount then ret st
  else
    ts <- mapM (fun tracker =>
                  if id tracker =? trackerId then
                    now <- Date_now ;;
                    ret (with_expenses
                           (expenses tracker
                            ++ [mkExpense now title (JSNumber (parseFloat amount))])
                           tracker)
                  else ret tracker)
               (trackers st) ;;
    ret (setExpenseAmount "" (setExpenseTitle "" (setTrackers ts st))).

(** [deleteExpense] (lines 83-89). *)
Definition deleteExpense (trackerId expenseId : Z) (st : App) : App :=
  setTrackers
    (map (fun tracker =>
            if id tracker =? trackerId then
              with_expenses
                (filter (fun expense => negb (expense_id expense =? expenseId))
                        (expenses tracker))
                tracker
            else tracker)
         (trackers st))
    st.

(** [toggleStatus] (lines 90-96). *)
Definition toggleStatus (trackerId : Z) (st : App) : App :=
  setTrackers
    (map (fun tracker =>
            if id tracker =? trackerId then
              with_status
                (if String.eqb (status tracker) InProgress then Cleared else InProgress)
                tracker
            else tracker)
         (trackers st))
    st.

(** [toggleExpand] (lines 98-104). *)
Definition toggleExpand (trackerId : Z) (st : App) : App :=
  setTrackers
    (map (fun tracker =>
            if id tracker =? trackerId then with_expanded (negb (expanded tracker)) tracker
            else tracker)
         (trackers st))
    st.

(** [getTotal] (lines 106-108):
    [reduce((sum, expense) => sum + expense.amount, 0)]. *)
Definition getTotal (tracker : ExpenseTracker) : number :=
  fold_left (fun sum expense => Number.add sum (ToNumber (amount expense)))
            (expenses tracker) Number.zero.

(* ================================================================== *)
(** ** Persistence *)

(** What JSON.stringify followed by JSON.parse makes of a number: NaN and the
    infinities are written as [null], and the sign of zero is not written. *)
Definition JSON_number (x : number) : JSValue :=
  match x with
  | S754_nan | S754_infinity _ => JSNull
  | S754_zero _ => JSNumber (S754_zero false)
  | S754_finite _ _ _ => JSNumber x
  end.

Definition JSON_value (v : JSValue) : JSValue :=
  match v with
  | JSNumber x => JSON_number x
  | JSNull => JSNull
  end.

(** A tracker as the JSON document holds it: the date is a string.  The JSON
    text itself is not modelled: a document is the tree that JSON.parse reads
    back from the text JSON.stringify wrote. *)
Record StoredTracker : Type := mkStored {
  stored_id : Z;
  stored_name : string;
  stored_date : string;
  stored_expenses : list Expense;
  stored_status : string;
  stored_expanded : bool
}.

Definition JSON_stringify (ts : list ExpenseTracker) : list StoredTracker :=
  map (fun t =>
         mkStored (id t) (name t) (toISOString (date t))
                  (map (fun e => mkExpense (expense_id e) (title e) (JSON_value (amount e)))
                       (expenses t))
                  (status t) (expanded t))
      ts.

(** The device store: keys to documents. *)
Definition AsyncStorage : Type := string -> option (list StoredTracker).

Definition getItem (key : string) (storage : AsyncStorage) : option (list StoredTracker) :=
  storage key.

Definition setItem (key : string) (doc : list StoredTracker) (storage : AsyncStorage)
  : AsyncStorage :=
  fun k => if String.eqb k key then Some doc else storage k.

(** The save effect (lines 45-47), run after every change of the tracker
    list. *)
Definition saveTrackers (st : App) (storage : AsyncStorage) : AsyncStorage :=
  setItem "trackers" (JSON_stringify (trackers st)) storage.

(** [{ ...tracker, date: new Date(tracker.date) }]; [None] when the stored
    string is not in the form that [toISOString] writes.  (The constructor
    reads other forms as well, and makes an Invalid Date of the rest, with
    which the loader goes on; documents with such dates are outside this
    model, and the save effect writes none.) *)
Definition rehydrate (tracker : StoredTracker) : option ExpenseTracker :=
  match Date_parse (stored_date tracker) with
  | Some t =>
      Some (mkTracker (stored_id tracker) (stored_name tracker) t
                      (stored_expenses tracker) (stored_status tracker)
                      (stored_expanded tracker))
  | None => None
  end.

Fixpoint traverse {A B : Type} (f : A -> option B) (l : list A) : option (list B) :=
  match l with
  | [] => Some []
  | x :: l' =>
      match f x, traverse f l' with
      | Some y, Some ys => Some (y :: ys)
      | _, _ => None
      end
  end.

(** The comparator of the loader (line 38): each call reads the clock twice,
    [Math.abs(new Date().getTime() - a.date.getTime())
     - Math.abs(new Date().getTime() - b.date.getTime())].
    The integer arithmetic is that of the numbers as long as the distances
    stay below 2^53 ms, which they do for any clock reading before the year
    13000. *)
Definition byProximity (a b : ExpenseTracker) : Eff Z :=
  na <- new_Date ;;
  nb <- new_Date ;;
  ret (Z.abs (getTime na - getTime (date a)) - Z.abs (getTime nb - getTime (date b))).

(** A comparator that reads the clock twice, for its first and then for its
    second argument, and answers from the two readings. *)
Definition reads_twice {A : Type} (answer : Z -> Z -> A -> A -> Z) : A -> A -> Eff Z :=
  fun a b =>
    na <- new_Date ;;
    nb <- new_Date ;;
    ret (answer (getTime na) (getTime nb) a b).

(** The mount effect, [loadTrackers] (lines 30-42).  [Some st'] is the state
    after the load; with nothing stored the state is left as it is. *)
Definition loadTrackers (storage : AsyncStorage) (st : App) : Eff (option App) :=
  match getItem "trackers" storage with
  | None => ret (Some st)
  | Some storedTrackers =>
      match traverse rehydrate storedTrackers with
      | None => ret None
      | Some parsedTrackers =>
          sorted <- Array_sort byProximity parsedTrackers ;;
          ret (Some (setTrackers sorted st))
      end
  end.

(** The mount effect on a given engine: the same, with the engine's [sort].
    [loadTrackers] is the case of the insertion sort
    ([loadTrackers_on_insertion] below). *)
Definition loadTrackers_on (engine : Engine) (storage : AsyncStorage) (st : App)
  : Eff (option App) :=
  match getItem "trackers" storage with
  | None => ret (Some st)
  | Some storedTrackers =>
      match traverse rehydrate storedTrackers with
      | None => ret None
      | Some parsedTrackers =>
          sorted <- Array_sort_on engine byProximity parsedTrackers ;;
          ret (Some (setTrackers sorted st))
      end
  end.

(* ================================================================== *)
(** ** The screen and its events *)

Definition setShowDatePicker (b : bool) (st : App) : App :=
  mkApp (trackers st) (trackerName st) (trackerDate st) b
        (expenseTitle st) (expenseAmount st).

(** What the user can do on the screen (lines 110-199): each control of the
    rendered tree with the call its callback makes.  A press carries the
    arguments that the callback passes, as they were when the screen was
    rendered. *)
Inductive Event : Type :=
| ChangeTrackerName (text : string)
| PressDate
| ChangeDate (selectedDate : option Date)
| PressAddTracker
| PressExpand (trackerId : Z)
| PressDeleteTracker (trackerId : Z)
| ChangeExpenseTitle (text : string)
| ChangeExpenseAmount (text : string)
| PressAddExpense (trackerId : Z) (titleText amountText : string)
| PressDeleteExpense (trackerId expenseId : Z)
| PressStatus (trackerId : Z).

(** The callbacks (lines 117, 121, 129-132, 135, 149, 152, 163, 171, 173,
    182, 189). *)
Definition handle (e : Event) (st : App) : Eff App :=
  match e with
  | ChangeTrackerName text => ret (setTrackerName text st)
  | PressDate => ret (setShowDatePicker true st)
  | ChangeDate selectedDate => ret (onDateChange selectedDate st)
  | PressAddTracker => addTracker st
  | PressExpand trackerId => ret (toggleExpand trackerId st)
  | PressDeleteTracker trackerId => ret (deleteTracker trackerId st)
  | ChangeExpenseTitle text => ret (setExpenseTitle text st)
  | ChangeExpenseAmount text => ret (setExpenseAmount text st)
  | PressAddExpense trackerId titleText amountText =>
      addExpense trackerId titleText amountText st
  | PressDeleteExpense trackerId expenseId => ret (deleteExpense trackerId expenseId st)
  | PressStatus trackerId => ret (toggleStatus trackerId st)
  end.

(** The line of an expense (lines 177-185). *)
Record ExpenseRow : Type := mkRow {
  row_key : Z;
  row_text : string;
  row_onDelete : Event
}.

(** The form of a tracker in progress, with the lines of its expenses
    (lines 158-187). *)
Record ExpenseForm : Type := mkForm {
  form_title : string;
  form_amount : string;
  form_onAdd : Event;
  form_rows : list ExpenseRow
}.

(** What an expanded tracker shows (lines 156-194). *)
Record Details : Type := mkDetails {
  details_form : option ExpenseForm;
  details_label : string;
  details_onStatus : Event
}.

(** The card of a tracker (lines 144-196). *)
Record Card : Type := mkCard {
  card_key : string;
  card_name : string;
  card_created : string;
  card_total : string;
  card_status : string;
  card_expandLabel : string;
  card_onExpand : Event;
  card_onDelete : Event;
  card_details : option Details
}.

(** The head of the screen (lines 113-138). *)
Record Header : Type := mkHeader {
  header_name : string;
  header_dateLabel : string;
  header_picker : option Date
}.

(** [n.toString()] for an integer [n]: its decimal numeral.  (Identifiers
    are clock readings, far below 10^21, where the notation of numbers
    changes.) *)
Definition Number_toString (n : Z) : string :=
  DecimalString.NilZero.string_of_int (Z.to_int n).

(** The key of a card in the list (line 142). *)
Definition keyExtractor (item : ExpenseTracker) : string :=
  Number_toString (id item).

(** The texts come from two formatters of the library, [toFixed(2)] of a
    number and [toDateString()] of a date (which depends on the time zone of
    the device); they are parameters of the rendering. *)
Section Render.

Variable toFixed2 : number -> string.
Variable toDateString : Date -> string.

(** [expense.amount.toFixed(2)]: [null] has no method, the call throws a
    TypeError ([None]). *)
Definition amount_toFixed (v : JSValue) : option string :=
  match v with
  | JSNumber x => Some (toFixed2 x)
  | JSNull => None
  end.

Definition renderExpense (item : ExpenseTracker) (expense : Expense)
  : option ExpenseRow :=
  match amount_toFixed (amount expense) with
  | Some text =>
      Some (mkRow (expense_id expense)
                  (title expense ++ ": $" ++ text)
                  (PressDeleteExpense (id item) (expense_id expense)))
  | None => None
  end.

Definition renderDetails (st : App) (item : ExpenseTracker) : option Details :=
  if String.eqb (status item) InProgress then
    match traverse (renderExpense item) (expenses item) with
    | Some rows =>
        Some (mkDetails
                (Some (mkForm (expenseTitle st) (expenseAmount st)
                              (PressAddExpense (id item) (expenseTitle st)
                                               (expenseAmount st))
                              rows))
                "Done" (PressStatus (id item)))
    | None => None
    end
  else Some (mkDetails None "Edit" (PressStatus (id item))).

(** [renderItem] of the list (lines 143-197); [None] when the rendering of
    the card throws. *)
Definition renderItem (st : App) (item : ExpenseTracker) : option Card :=
  match (if expanded item then
           match renderDetails st item with
           | Some d => Some (Some d)
           | None => None
           end
         else Some None) with
  | Some details =>
      Some (mkCard (keyExtractor item)
                   (name item)
                   ("Created on: " ++ toDateString (date item))
                   ("Total: $" ++ toFixed2 (getTotal item))
                   ("Status: " ++ (if falsy (status item) then InProgress
                                   else status item))
                   (if expanded item then "Hide Details..🤌" else "Show Details..👆")
                   (PressExpand (id item))
                   (PressDeleteTracker (id item))
                   details)
  | None => None
  end.

(** The head of the screen (the JSX of lines 113-138); the picker, when
    shown, is given the chosen date or else the date of the clock.  The
    reading that every render takes before it is in [render] below. *)
Definition renderHeader (st : App) : Eff Header :=
  picker <- (if showDatePicker st then
               d <- match trackerDate st with
                    | Some d => ret d
                    | None => new_Date
                    end ;;
               ret (Some d)
             else ret None) ;;
  ret (mkHeader (trackerName st)
                (match trackerDate st with
                 | Some d => toDateString d
                 | None => "Select Date"
                 end)
                picker).

(** One render of the component (lines 22-201).  Its body runs from the top
    at every render: the argument of [useState] at line 25, [new Date()], is
    evaluated each time, and its value is used at the first render only
    ([initial]); then the head is built.  The cards are built by the list,
    from [renderItem]. *)
Definition render (st : App) : Eff Header :=
  unused <- new_Date ;;
  renderHeader st.

(** The presses that a card offers. *)
Definition card_presses (c : Card) : list Event :=
  card_onExpand c :: card_onDelete c ::
  match card_details c with
  | None => []
  | Some d =>
      details_onStatus d ::
      match details_form d with
      | None => []
      | Some f => form_onAdd f :: map row_onDelete (form_rows f)
      end
  end.

(** The events that the screen of a state offers: the controls of its head,
    and those of the cards of its trackers. *)
Definition offered (st : App) (e : Event) : Prop :=
  match e with
  | ChangeTrackerName _ | PressDate | PressAddTracker => True
  | ChangeDate _ => showDatePicker st = true
  | ChangeExpenseTitle _ | ChangeExpenseAmount _ =>
      exists item card d f,
        In item (trackers st) /\ renderItem st item = Some card
        /\ card_details card = Some d /\ details_form d = Some f
  | _ =>
      exists item card,
        In item (trackers st) /\ renderItem st item = Some card
        /\ In e (card_presses card)
  end.

(** A session: renders of the component and offered events, each event
    handled in the state that the one before left, from the state and the
    clock index at its start.  The component may render any number of times
    between two events. *)
Inductive session_from (w : World) (n0 : nat) (st0 : App) : nat -> App -> Prop :=
| session_start : session_from w n0 st0 n0 st0
| session_render (n : nat) (st : App) :
    session_from w n0 st0 n st ->
    session_from w n0 st0 (snd (render st w n)) st
| session_event (n : nat) (st : App) (e : Event) :
    session_from w n0 st0 n st ->
    offered st e ->
    session_from w n0 st0 (snd (handle e st w n)) (fst (handle e st w n)).

End Render.

(* ================================================================== *)
(** ** The vocabulary of the properties *)

(** The distance of a tracker's date from a time. *)
Definition proximity (now : Z) (t : ExpenseTracker) : Z :=
  Z.abs (now - getTime (date t)).

(** The answer of the loader's comparator, from its two readings. *)
Definition proximity_gap (na nb : Z) (a b : ExpenseTracker) : Z :=
  proximity na a - proximity nb b.

(** The sum of the first [k] amounts of a list of expenses, taken in order
    with the addition of numbers, from zero. *)
Fixpoint running_total (es : list Expense) (k : nat) : number :=
  match k with
  | O => Number.zero
  | S k' =>
      Number.add (running_total es k')
                 (match nth_error es k' with
                  | Some e => ToNumber (amount e)
                  | None => Number.zero
                  end)
  end.

(** The sum of the amounts of a list of expenses. *)
Definition sum_of_amounts (es : list Expense) : number :=
  running_total es (List.length es).

(** The step of the reduction in [getTotal]. *)
Definition add_amount (sum : number) (expense : Expense) : number :=
  Number.add sum (ToNumber (amount expense)).

(** In ascending order of date: each tracker is dated no later than all the
    trackers after it. *)
Definition sorted_by_date (l : list ExpenseTracker) : Prop :=
  StronglySorted (key_le (fun t => getTime (date t))) l.

(** The expense that [addExpense] builds, and the copy of a tracker with it. *)
Definition newExpense (now : Z) (title amount : string) : Expense :=
  mkExpense now title (JSNumber (parseFloat amount)).

(** A first character with which neither white space nor a number starts. *)
Definition starts_number (c : ascii) : bool :=
  is_digit c
  || existsb (Ascii.eqb c) ["+"; "-"; "."; "I"]%char
  || existsb (fun n => (nat_of_ascii c =? n)%nat)
             [9; 10; 11; 12; 13; 32; 194; 225; 226; 227; 239]%nat.

(** The two values of the [status] field. *)
Definition valid_status (s : string) : Prop := s = InProgress \/ s = Cleared.

(** Every tracker of the state has one of the two. *)
Definition status_invariant (st : App) : Prop :=
  Forall (fun t => valid_status (status t)) (trackers st).

(** What [toggleStatus] writes in place of a status. *)
Definition flip (s : string) : string :=
  if String.eqb s InProgress then Cleared else InProgress.

(** The amounts that a JSON document gives back as they were: [null], and the
    finite numbers other than negative zero. *)
Definition storable_amount (v : JSValue) : bool :=
  match v with
  | JSNull => true
  | JSNumber (S754_finite _ _ _) => true
  | JSNumber (S754_zero false) => true
  | JSNumber _ => false
  end.

(** A tracker whose date is a time value of a Date and whose amounts are
    all of that kind. *)
Definition storable (t : ExpenseTracker) : Prop :=
  valid_time (getTime (date t))
  /\ Forall (fun e => storable_amount (amount e) = true) (expenses t).

(** Each tracker of the list is at most as far from [now] as the next one. *)
Definition sorted_by_proximity (now : Z) (l : list ExpenseTracker) : Prop :=
  forall i a b,
    nth_error l i = Some a -> nth_error l (S i) = Some b ->
    proximity now a <= proximity now b.

(** An engine whose [sort] does what the language asks of it when the
    comparator subtracts integer keys: it returns the elements of the array in
    the order of their keys. *)
Definition sorts (engine : Engine) : Prop :=
  forall (A : Type) (key : A -> Z) (l : list A),
    Permutation (answer_with (engine A l) (fun a b => key a - key b)) l
    /\ StronglySorted (key_le key) (answer_with (engine A l) (fun a b => key a - key b)).

(** What a reload makes of a tracker: each amount is the one that the JSON
    document gives back. *)
Definition reloaded (t : ExpenseTracker) : ExpenseTracker :=
  with_expenses
    (map (fun e => mkExpense (expense_id e) (title e) (JSON_value (amount e)))
         (expenses t))
    t.

(** Every amount of the state is a number. *)
Definition numbers_only (st : App) : Prop :=
  Forall (fun t => Forall (fun e => amount e <> JSNull) (expenses t)) (trackers st).

(** The identifiers of the expenses of a tracker are distinct and below a
    bound. *)
Definition expense_ids_below (bound : Z) (t : ExpenseTracker) : Prop :=
  NoDup (map expense_id (expenses t))
  /\ Forall (fun e => expense_id e < bound) (expenses t).

(** The identifiers of the state are distinct, those of the trackers among
    themselves and those of the expenses within each tracker, and all are
    below a bound. *)
Definition ids_below (bound : Z) (st : App) : Prop :=
  NoDup (map id (trackers st))
  /\ Forall (fun t => id t < bound /\ expense_ids_below bound t) (trackers st).

(** The presses on the card of a tracker, read off its fields: to expand
    and to delete always, the status button when expanded, and the form's
    button and the bin of each expense when in progress as well. *)
Definition item_presses (st : App) (item : ExpenseTracker) : list Event :=
  PressExpand (id item) :: PressDeleteTracker (id item) ::
  (if expanded item then
     PressStatus (id item) ::
     (if String.eqb (status item) InProgress then
        PressAddExpense (id item) (expenseTitle st) (expenseAmount st) ::
        map (fun e => PressDeleteExpense (id item) (expense_id e)) (expenses item)
      else [])
   else []).

(* ================================================================== *)
(** ** Example states *)

(** A clock that advances by one millisecond from a reading to the next,
    with an engine of either kind. *)
Definition ticking (later : bool) : World :=
  mkWorld (fun i => 1700000000000 + Z.of_nat i) later.

Definition demo_world : World := ticking false.

(** A state with three trackers, given in no particular order of date. *)
Definition demo_trackers : list ExpenseTracker :=
  [ mkTracker 11 "Rent" 1700000500000 [] InProgress false;
    mkTracker 12 "Food" 1600000000000
      [mkExpense 21 "Bread" (JSNumber (parseFloat "10.50"));
       mkExpense 22 "Milk" (JSNumber (parseFloat "5"))] Cleared true;
    mkTracker 13 "Trip" 1800000000000 [] InProgress false ].

Definition demo_state : App :=
  mkApp demo_trackers "Books" None false "" "".

(** A session from the first render: a tracker is added, then two expenses. *)
Definition session : Eff App :=
  st <- initial ;;
  st <- addTracker (setTrackerName "Trip" st) ;;
  st <- addExpense (hd 0 (map id (trackers st))) "Bread" "10.50" st ;;
  addExpense (hd 0 (map id (trackers st))) "Milk" "5" st.

(** The state at the end of the session, and the state after one more
    expense, with the amount text "abc", is added to its tracker: the amount
    of that expense is NaN. *)
Definition session_state : App := fst (session demo_world 0%nat).

Definition nan_state : App :=
  fst (addExpense (hd 0 (map id (trackers session_state))) "Hotel" "abc"
                  session_state demo_world 5%nat).

(** Two formatters for the examples; the texts they give do not matter. *)
Definition demo_toFixed2 : number -> string := fun _ => "0.00"%string.

Definition demo_toDateString : Date -> string := fun _ => "Thu Jan 01 1970"%string.

(** The example state with its first tracker, which is in progress,
    expanded. *)
Definition expanded_state : App := toggleExpand 11 demo_state.

(** That state with a title and an amount typed into the form. *)
Definition typed_state : App :=
  setExpenseAmount "abc" (setExpenseTitle "Hotel" expanded_state).

(** A clock that stands still. *)
Definition steady_world : World := mkWorld (fun _ => 1700000000000) true.

(** Two trackers dated one millisecond apart, both before the load, the
    older one first. *)
Definition past_state : App :=
  mkApp [ mkTracker 1 "Older" 1699999998999 [] InProgress false;
          mkTracker 2 "Newer" 1699999999000 [] InProgress false ]
        "" None false "" "".

(** Two trackers dated one millisecond apart, both well after the load, the
    later one first. *)
Definition future_state : App :=
  mkApp [ mkTracker 1 "Later" 1700001000000 [] InProgress false;
          mkTracker 2 "Sooner" 1700000999999 [] InProgress false ]
        "" None false "" "".

(* ================================================================== *)
(** * Properties *)

(** ** The clock monad and the sort *)

(** Each element of the result of [mapM] is the image of the element at the
    same place, at some state of the clock. *)
Lemma mapM_Forall2 {A B : Type} (f : A -> Eff B) (l : list A) (w : World) (n : nat) :
  Forall2 (fun x y => exists k, y = fst (f x w k)) l (fst (mapM f l w n)).
Proof.
  revert n. induction l as [|x l IH]; intros n; simpl; [constructor|].
  unfold bind, ret. destruct (f x w n) as [y n1] eqn:E.
  specialize (IH n1). destruct (mapM f l w n1) as [ys n2]. simpl in *.
  constructor; [|exact IH]. exists n. now rewrite E.
Qed.

Section SortFacts.

Context {A : Type}.

(** A comparator without effect: the effectful insertion sort is the pure
    one. *)
Lemma insert_ret (compare : A -> A -> Z) (x : A) (l : list A) (w : World) (n : nat) :
  insert (fun a b => ret (compare a b)) x l w n = (insert_pure compare x l, n).
Proof.
  induction l as [|y l IH]; simpl; [reflexivity|].
  unfold bind, ret in *. destruct (compare x y <=? 0); [reflexivity|].
  rewrite IH. reflexivity.
Qed.

Lemma insertion_sort_ret (compare : A -> A -> Z) (l : list A) (w : World) (n : nat) :
  insertion_sort (fun a b => ret (compare a b)) l w n = (sort_pure compare l, n).
Proof.
  induction l as [|x l IH]; simpl; [reflexivity|].
  unfold bind in *. rewrite IH. apply insert_ret.
Qed.

Lemma sort_pure_ext (c1 c2 : A -> A -> Z) (l : list A) :
  (forall a b, c1 a b = c2 a b) -> sort_pure c1 l = sort_pure c2 l.
Proof.
  intros E. induction l as [|x l IH]; [reflexivity|].
  simpl. rewrite IH. generalize (sort_pure c2 l). intros s.
  induction s as [|y s IHs]; [reflexivity|].
  simpl. now rewrite E, IHs.
Qed.

(** Whatever the comparator answers, the sort rearranges its input. *)
Lemma insert_Permutation (comparefn : A -> A -> Eff Z) (x : A) (l : list A)
      (w : World) (n : nat) :
  Permutation (fst (insert comparefn x l w n)) (x :: l).
Proof.
  revert n. induction l as [|y l IH]; intros n; simpl; [apply Permutation_refl|].
  unfold bind, ret. destruct (comparefn x y w n) as [v n1].
  destruct (v <=? 0); simpl; [apply Permutation_refl|].
  specialize (IH n1). destruct (insert comparefn x l w n1) as [r n2]. simpl in *.
  eapply perm_trans; [apply perm_skip, IH|apply perm_swap].
Qed.

Lemma insertion_sort_Permutation (comparefn : A -> A -> Eff Z) (l : list A)
      (w : World) (n : nat) :
  Permutation (fst (insertion_sort comparefn l w n)) l.
Proof.
  revert n. induction l as [|x l IH]; intros n; simpl; [apply Permutation_refl|].
  unfold bind. specialize (IH n). destruct (insertion_sort comparefn l w n) as [s n1].
  simpl in IH. eapply perm_trans; [apply insert_Permutation|now apply perm_skip].
Qed.

Lemma Array_sort_Permutation (comparefn : A -> A -> Eff Z) (l : list A)
      (w : World) (n : nat) :
  Permutation (fst (Array_sort comparefn l w n)) l.
Proof.
  unfold Array_sort, bind, argumentOrder.
  destruct (laterFirst w); apply insertion_sort_Permutation.
Qed.

Lemma sort_pure_Permutation (compare : A -> A -> Z) (l : list A) :
  Permutation (sort_pure compare l) l.
Proof.
  pose proof (insertion_sort_Permutation (fun a b => ret (compare a b)) l
                (mkWorld (fun _ => 0) false) O) as H.
  now rewrite insertion_sort_ret in H.
Qed.

(** With a comparator that subtracts keys, the result is in key order. *)
Section ByKey.

Variable key : A -> Z.

Lemma insert_pure_In (compare : A -> A -> Z) (x z : A) (l : list A) :
  In z (insert_pure compare x l) -> z = x \/ In z l.
Proof.
  induction l as [|y l IH]; simpl.
  - intros [H|[]]; auto.
  - destruct (compare x y <=? 0); simpl; intuition auto.
Qed.

Lemma insert_pure_sorted (x : A) (l : list A) :
  StronglySorted (key_le key) l ->
  StronglySorted (key_le key) (insert_pure (fun a b => key a - key b) x l).
Proof.
  induction 1 as [|y l Hs IH Hy]; simpl.
  - constructor; constructor.
  - destruct (key x - key y <=? 0) eqn:E.
    + apply Z.leb_le in E. constructor; [constructor; assumption|].
      constructor; [unfold key_le; lia|].
      rewrite Forall_forall in *. intros z Hz. specialize (Hy z Hz).
      unfold key_le in *. lia.
    + apply Z.leb_gt in E. constructor; [exact IH|].
      rewrite Forall_forall in *. intros z Hz.
      apply insert_pure_In in Hz. destruct Hz as [->|Hz];
        [unfold key_le; lia|now apply Hy].
Qed.

Lemma sort_pure_sorted (l : list A) :
  StronglySorted (key_le key) (sort_pure (fun a b => key a - key b) l).
Proof.
  induction l as [|x l IH]; simpl; [constructor|now apply insert_pure_sorted].
Qed.

(** With such a comparator the engine's order of the arguments does not
    matter. *)
Lemma Array_sort_by_key (l : list A) (w : World) (n : nat) :
  Array_sort (fun a b => ret (key a - key b)) l w n
  = (sort_pure (fun a b => key a - key b) l, n).
Proof.
  unfold Array_sort, bind, argumentOrder. destruct (laterFirst w).
  - change (mirrored (fun a b => ret (key a - key b)))
      with (fun a b : A => @ret Z (- (key b - key a))).
    rewrite insertion_sort_ret. f_equal. apply sort_pure_ext. intros a b. lia.
  - apply insertion_sort_ret.
Qed.

(** The sort is stable: elements of equal key keep their order.  It is
    enough that a sorted list is left as it is by an insertion in front. *)
Lemma insert_pure_front (x : A) (l : list A) :
  Forall (key_le key x) l -> insert_pure (fun a b => key a - key b) x l = x :: l.
Proof.
  destruct l as [|y l]; simpl; [reflexivity|].
  intros H. inversion H as [|? ? Hxy _]; subst. unfold key_le in Hxy.
  destruct (key x - key y <=? 0) eqn:E; [reflexivity|].
  apply Z.leb_gt in E. lia.
Qed.

Lemma sort_pure_sorted_id (l : list A) :
  StronglySorted (key_le key) l -> sort_pure (fun a b => key a - key b) l = l.
Proof.
  induction 1 as [|x l Hs IH Hx]; [reflexivity|].
  change (insert_pure (fun a b => key a - key b) x
            (sort_pure (fun a b => key a - key b) l) = x :: l).
  rewrite IH. now apply insert_pure_front.
Qed.

(** Sorting a sorted list with one more element at its end puts that element
    in, and moves nothing else. *)
Lemma sort_pure_snoc_sorted (x : A) (l : list A) :
  StronglySorted (key_le key) l ->
  exists before after,
    l = before ++ after
    /\ sort_pure (fun a b => key a - key b) (l ++ [x]) = before ++ x :: after.
Proof.
  induction 1 as [|y l Hs IH Hy].
  - exists [], []. split; reflexivity.
  - destruct IH as (before & after & El & Es).
    change (sort_pure (fun a b => key a - key b) ((y :: l) ++ [x]))
      with (insert_pure (fun a b => key a - key b) y
              (sort_pure (fun a b => key a - key b) (l ++ [x]))).
    rewrite Es. destruct before as [|a before].
    + simpl in El. subst after. simpl.
      destruct (key y - key x <=? 0).
      * exists [y], l. split; reflexivity.
      * exists [], (y :: l). split; [reflexivity|].
        simpl. now rewrite insert_pure_front.
    + exists (y :: a :: before), after. split; [now rewrite El|].
      simpl. subst l. inversion Hy as [|? ? Hya _]; subst. unfold key_le in Hya.
      destruct (key y - key a <=? 0) eqn:E; [reflexivity|].
      apply Z.leb_gt in E. lia.
Qed.

(** The sort is the only stable one: a list in key order that holds, for
    every key, the elements of that key in the order of the input is the
    result of the sort.  So the insertion sort stands for whatever stable
    algorithm an engine runs, as long as the comparator subtracts keys. *)
Lemma filter_insert_pure (k : Z) (x : A) (l : list A) :
  filter (fun a => key a =? k) (insert_pure (fun a b => key a - key b) x l)
  = if key x =? k then x :: filter (fun a => key a =? k) l
    else filter (fun a => key a =? k) l.
Proof.
  induction l as [|y l IH]; [reflexivity|].
  simpl. destruct (key x - key y <=? 0) eqn:E; [reflexivity|].
  apply Z.leb_gt in E. simpl. rewrite IH.
  destruct (key x =? k) eqn:Ex; [|reflexivity].
  apply Z.eqb_eq in Ex.
  replace (key y =? k) with false by (symmetry; apply Z.eqb_neq; lia). reflexivity.
Qed.

Lemma filter_sort_pure (k : Z) (l : list A) :
  filter (fun a => key a =? k) (sort_pure (fun a b => key a - key b) l)
  = filter (fun a => key a =? k) l.
Proof.
  induction l as [|x l IH]; [reflexivity|].
  change (sort_pure (fun a b => key a - key b) (x :: l))
    with (insert_pure (fun a b => key a - key b) x
            (sort_pure (fun a b => key a - key b) l)).
  rewrite filter_insert_pure, IH. reflexivity.
Qed.

Lemma sorted_head_least (a : A) (l l' : list A) :
  StronglySorted (key_le key) (a :: l) ->
  filter (fun b => key b =? key a) l' = filter (fun b => key b =? key a) (a :: l) ->
  exists b, In b l' /\ key b = key a.
Proof.
  intros _ E. simpl in E. rewrite Z.eqb_refl in E.
  assert (H : In a (filter (fun b => key b =? key a) l')) by (rewrite E; now left).
  apply filter_In in H. exists a. split; [tauto|reflexivity].
Qed.

Lemma sorted_stable_unique (l1 : list A) :
  forall l2,
    StronglySorted (key_le key) l1 -> StronglySorted (key_le key) l2 ->
    (forall k, filter (fun a => key a =? k) l1 = filter (fun a => key a =? k) l2) ->
    l1 = l2.
Proof.
  induction l1 as [|a l1 IH]; intros l2 H1 H2 E.
  - destruct l2 as [|b l2]; [reflexivity|].
    specialize (E (key b)). simpl in E. rewrite Z.eqb_refl in E. discriminate E.
  - destruct l2 as [|b l2].
    + specialize (E (key a)). simpl in E. rewrite Z.eqb_refl in E. discriminate E.
    + destruct (sorted_head_least a l1 (b :: l2) H1 (eq_sym (E (key a)))) as (a' & Ha' & Ka).
      destruct (sorted_head_least b l2 (a :: l1) H2 (E (key b))) as (b' & Hb' & Kb).
      inversion H1 as [|? ? H1' F1]; subst. inversion H2 as [|? ? H2' F2]; subst.
      rewrite Forall_forall in F1, F2.
      assert (Kab : key a = key b).
      { assert (key b <= key a').
        { destruct Ha' as [<-|Ha']; [lia|]. apply (F2 _ Ha'). }
        assert (key a <= key b').
        { destruct Hb' as [<-|Hb']; [lia|]. apply (F1 _ Hb'). }
        lia. }
      pose proof (E (key a)) as Ea. simpl in Ea.
      rewrite Z.eqb_refl, <- Kab, Z.eqb_refl in Ea. injection Ea as <- _.
      f_equal. apply IH; [assumption|assumption|].
      intros k. specialize (E k). simpl in E.
      destruct (key a =? k); [now injection E|exact E].
Qed.

Lemma sort_pure_unique (l l' : list A) :
  StronglySorted (key_le key) l' ->
  (forall k, filter (fun a => key a =? k) l' = filter (fun a => key a =? k) l) ->
  l' = sort_pure (fun a b => key a - key b) l.
Proof.
  intros Hs E. apply sorted_stable_unique; [exact Hs|apply sort_pure_sorted|].
  intros k. now rewrite filter_sort_pure.
Qed.

(** Consecutive elements of a sorted list are in order. *)
Lemma StronglySorted_adjacent (l : list A) (i : nat) (a b : A) :
  StronglySorted (key_le key) l ->
  nth_error l i = Some a -> nth_error l (S i) = Some b -> key a <= key b.
Proof.
  intros Hs. revert i. induction Hs as [|x l Hs IH Hx]; intros i Ha Hb.
  - destruct i; discriminate.
  - destruct i as [|i]; simpl in *.
    + injection Ha as <-. rewrite Forall_forall in Hx.
      apply (Hx b). destruct l; [discriminate|]. simpl in Hb. injection Hb as <-. now left.
    + now apply (IH i).
Qed.

End ByKey.

End SortFacts.

(** ** A comparator that reads the clock *)

(** The loader's comparator is of that kind, and so is its mirror image. *)
Lemma byProximity_reads_twice :
  byProximity = reads_twice proximity_gap
  /\ mirrored byProximity = reads_twice (fun na nb a b => - proximity_gap na nb b a).
Proof. split; reflexivity. Qed.

(** ** The comparisons of an engine *)

Section Consult.

Context {A R : Type}.

Lemma consult_and_then {S : Type} (c : Comparing A R) (k : R -> Comparing A S)
      (comparefn : A -> A -> Eff Z) (w : World) (n : nat) :
  consult (and_then c k) comparefn w n
  = consult (k (fst (consult c comparefn w n))) comparefn w
            (snd (consult c comparefn w n)).
Proof.
  revert n. induction c as [r|x y next IH]; intros n; [reflexivity|].
  cbn [and_then consult]. unfold bind. destruct (comparefn x y w n) as [v n1]. apply IH.
Qed.

(** With a comparator that has no effect the clock is not read. *)
Lemma consult_ret (c : Comparing A R) (compare : A -> A -> Z) (w : World) (n : nat) :
  consult c (fun a b => ret (compare a b)) w n = (answer_with c compare, n).
Proof.
  induction c as [r|x y next IH]; [reflexivity|].
  cbn [consult answer_with]. unfold bind, ret at 1. apply IH.
Qed.

Variable answer : Z -> Z -> A -> A -> Z.

Lemma consult_reads_twice_Ask (x y : A) (next : Z -> Comparing A R) (w : World) (n : nat) :
  consult (Ask x y next) (reads_twice answer) w n
  = consult (next (answer (clock w n) (clock w (S n)) x y)) (reads_twice answer) w
            (S (S n)).
Proof. reflexivity. Qed.

(** The index of the next reading only grows. *)
Lemma consult_reads_twice_counter (c : Comparing A R) (w : World) (n : nat) :
  (n <= snd (consult c (reads_twice answer) w n))%nat.
Proof.
  revert n. induction c as [r|x y next IH]; intros n; [cbn; lia|].
  rewrite consult_reads_twice_Ask.
  specialize (IH (answer (clock w n) (clock w (S n)) x y) (S (S n))). lia.
Qed.

(** When every reading that the engine's comparisons take is the same time
    [now], the engine makes the comparisons, and returns the result, that it
    would with the comparator that answers from [now] and reads nothing. *)
Lemma consult_reads_twice_steady (now : Z) (c : Comparing A R) (w : World) (n : nat) :
  (forall i, (n <= i < snd (consult c (reads_twice answer) w n))%nat -> clock w i = now) ->
  fst (consult c (reads_twice answer) w n) = answer_with c (answer now now).
Proof.
  revert n. induction c as [r|x y next IH]; intros n H; [reflexivity|].
  rewrite consult_reads_twice_Ask in *.
  pose proof (consult_reads_twice_counter
                (next (answer (clock w n) (clock w (S n)) x y)) w (S (S n))) as Hc.
  assert (Hn : clock w n = now) by (apply H; lia).
  assert (Hn' : clock w (S n) = now) by (apply H; lia).
  rewrite Hn, Hn' in *. cbn [answer_with].
  apply IH. intros i Hi. apply H. lia.
Qed.

End Consult.

(** The insertion sort as an engine makes the comparisons of
    [insertion_sort]. *)
Lemma consult_insert_asking {A : Type} (later : bool) (comparefn : A -> A -> Eff Z)
      (x : A) (l : list A) (w : World) (n : nat) :
  consult (insert_asking later x l) comparefn w n
  = insert (if later then mirrored comparefn else comparefn) x l w n.
Proof.
  revert n. induction l as [|y l IH]; intros n; [reflexivity|].
  cbn [insert_asking insert].
  destruct later; cbn [consult]; unfold mirrored, bind, ret;
    destruct (comparefn _ _ w n) as [v n1];
    (destruct (_ <=? 0); [reflexivity|]);
    rewrite consult_and_then, IH;
    unfold mirrored, bind, ret;
    destruct (insert _ x l w n1); reflexivity.
Qed.

Lemma consult_insertion_asking {A : Type} (later : bool) (comparefn : A -> A -> Eff Z)
      (l : list A) (w : World) (n : nat) :
  consult (insertion_asking later l) comparefn w n
  = insertion_sort (if later then mirrored comparefn else comparefn) l w n.
Proof.
  induction l as [|x l IH]; [reflexivity|].
  cbn [insertion_asking insertion_sort]. rewrite consult_and_then, IH.
  unfold bind. destruct (insertion_sort _ l w n) as [r n1]. cbn [fst snd].
  apply consult_insert_asking.
Qed.

Lemma Array_sort_on_insertion {A : Type} (comparefn : A -> A -> Eff Z) (l : list A)
      (w : World) (n : nat) :
  Array_sort_on (insertion_engine (laterFirst w)) comparefn l w n
  = Array_sort comparefn l w n.
Proof.
  unfold Array_sort_on, insertion_engine, Array_sort, bind, argumentOrder.
  apply consult_insertion_asking.
Qed.

(** [loadTrackers] is the load on the engine of the insertion sort. *)
Lemma loadTrackers_on_insertion (storage : AsyncStorage) (st : App)
      (w : World) (n : nat) :
  loadTrackers_on (insertion_engine (laterFirst w)) storage st w n
  = loadTrackers storage st w n.
Proof.
  unfold loadTrackers_on, loadTrackers.
  destruct (getItem "trackers" storage) as [stored|]; [|reflexivity].
  destruct (traverse rehydrate stored) as [parsed|]; [|reflexivity].
  unfold bind. now rewrite Array_sort_on_insertion.
Qed.

(** The insertion sort is an engine that sorts. *)
Lemma insertion_engine_sorts (later : bool) : sorts (insertion_engine later).
Proof.
  intros A key l.
  assert (E : answer_with (insertion_engine later A l) (fun a b => key a - key b)
              = sort_pure (fun a b => key a - key b) l).
  { pose proof (consult_ret (insertion_engine later A l) (fun a b => key a - key b)
                  (mkWorld (fun _ => 0) later) O) as H1.
    pose proof (Array_sort_on_insertion (fun a b => ret (key a - key b)) l
                  (mkWorld (fun _ => 0) later) O) as H2.
    unfold Array_sort_on in H2. cbn [laterFirst] in H2.
    rewrite H1, Array_sort_by_key in H2. now injection H2. }
  rewrite E. split; [apply sort_pure_Permutation|apply sort_pure_sorted].
Qed.

(** ** Dates: the ISO string of a time value reads back as that time value *)

Lemma civil_from_days_inverse (z : Z) :
  let '(y, m, d) := civil_from_days z in
  1 <= m <= 12 /\ 1 <= d <= 31 /\ days_from_civil y m d = z
  /\ (z + 719468) / 146097 * 400 <= y <= (z + 719468) / 146097 * 400 + 400.
Proof.
  unfold civil_from_days.
  set (z' := z + 719468). set (era := z' / 146097). set (doe := z' - era * 146097).
  assert (Hdoe : 0 <= doe <= 146096).
  { subst doe era. pose proof (Z.div_mod z' 146097) as E.
    pose proof (Z.mod_pos_bound z' 146097). lia. }
  set (yoe := (doe - doe / 1460 + doe / 36524 - doe / 146096) / 365).
  set (doy := doe - (365 * yoe + yoe / 4 - yoe / 100)).
  assert (Hy : 0 <= yoe <= 399 /\ 0 <= doy <= 365).
  { subst doy yoe. clearbody doe. clear - Hdoe.
    Z.to_euclidean_division_equations; lia. }
  destruct Hy as [Hyoe Hdoy].
  set (mp := (5 * doy + 2) / 153).
  set (d := doy - (153 * mp + 2) / 5 + 1).
  assert (Hm : 0 <= mp <= 11 /\ 1 <= d <= 31).
  { subst d mp. clearbody doy. clear - Hdoy.
    Z.to_euclidean_division_equations; lia. }
  destruct Hm as [Hmp Hd].
  assert (Hera : forall k, 0 <= k <= 399 -> (k + era * 400) / 400 = era).
  { intros k Hk. rewrite Z.div_add by lia. rewrite Z.div_small by lia. lia. }
  assert (Hz : z = era * 146097 + doe - 719468) by (subst doe z'; lia).
  unfold days_from_civil.
  destruct (mp <? 10) eqn:E; [apply Z.ltb_lt in E|apply Z.ltb_ge in E].
  - replace (mp + 3 <=? 2) with false by (symmetry; apply Z.leb_gt; lia).
    replace (2 <? mp + 3) with true by (symmetry; apply Z.ltb_lt; lia).
    rewrite Hera by lia.
    replace (yoe + era * 400 - era * 400) with yoe by lia.
    replace (mp + 3 - 3) with mp by lia.
    subst d doy. repeat split; try lia.
  - replace (mp - 9 <=? 2) with true by (symmetry; apply Z.leb_le; lia).
    replace (2 <? mp - 9) with false by (symmetry; apply Z.ltb_ge; lia).
    replace (yoe + era * 400 + 1 - 1) with (yoe + era * 400) by lia.
    rewrite Hera by lia.
    replace (yoe + era * 400 - era * 400) with yoe by lia.
    replace (mp - 9 + 9) with mp by lia.
    subst d doy. repeat split; try lia.
Qed.

Lemma digit_char_is_digit (d : Z) : 0 <= d < 10 -> is_digit (digit_char d) = true.
Proof.
  intros H.
  assert (E : d = 0 \/ d = 1 \/ d = 2 \/ d = 3 \/ d = 4 \/ d = 5 \/ d = 6 \/ d = 7
              \/ d = 8 \/ d = 9) by lia.
  repeat (destruct E as [->|E]; [reflexivity|]). now subst.
Qed.

Lemma digit_value_digit_char (d : Z) : 0 <= d < 10 -> digit_value (digit_char d) = d.
Proof.
  intros H.
  assert (E : d = 0 \/ d = 1 \/ d = 2 \/ d = 3 \/ d = 4 \/ d = 5 \/ d = 6 \/ d = 7
              \/ d = 8 \/ d = 9) by lia.
  repeat (destruct E as [->|E]; [reflexivity|]). now subst.
Qed.

(** Reading back the digits that [pad] wrote. *)
Lemma read_fixed_pad_more (w : nat) :
  forall (k : nat) (n acc : Z) (rest : string),
    0 <= n < 10 ^ Z.of_nat w ->
    read_fixed (w + k) acc (pad w n rest)
    = read_fixed k (acc * 10 ^ Z.of_nat w + n) rest.
Proof.
  induction w as [|w IH]; intros k n acc rest H.
  - simpl in *. f_equal. lia.
  - rewrite Nat2Z.inj_succ, Z.pow_succ_r in * by lia.
    pose proof (Z.div_mod n 10) as E. pose proof (Z.mod_pos_bound n 10) as B.
    cbn [pad]. rewrite Nat.add_succ_comm, IH by (split; [apply Z.div_pos|apply Z.div_lt_upper_bound]; lia).
    cbn [read_fixed].
    rewrite digit_char_is_digit, digit_value_digit_char by lia.
    f_equal. set (p := 10 ^ Z.of_nat w).
    replace (acc * (10 * p)) with (10 * (acc * p)) by ring. lia.
Qed.

Lemma read_fixed_pad (w : nat) (n : Z) (rest : string) :
  0 <= n < 10 ^ Z.of_nat w ->
  read_fixed w 0 (pad w n rest) = Some (n, rest).
Proof.
  intros H. pose proof (read_fixed_pad_more w O n 0 rest H) as E.
  rewrite Nat.add_0_r in E. rewrite E. reflexivity.
Qed.

(** The string written by [pad] for a positive width starts with a digit. *)
Lemma pad_starts_with_digit (w : nat) :
  forall (n : Z) (rest : string),
    0 <= n < 10 ^ Z.of_nat (S w) ->
    exists c s, pad (S w) n rest = String c s /\ is_digit c = true.
Proof.
  induction w as [|w IH]; intros n rest H.
  - exists (digit_char (n mod 10)), rest. split; [reflexivity|].
    apply digit_char_is_digit. apply Z.mod_pos_bound. lia.
  - rewrite Nat2Z.inj_succ, Z.pow_succ_r in H by lia.
    change (pad (S (S w)) n rest) with (pad (S w) (n / 10) (String (digit_char (n mod 10)) rest)).
    apply IH. split; [apply Z.div_pos|apply Z.div_lt_upper_bound]; lia.
Qed.

Lemma read_year_digit (c : ascii) (s : string) :
  is_digit c = true -> read_year (String c s) = read_fixed 4 0 (String c s).
Proof.
  destruct c as [[] [] [] [] [] [] [] []]; intros H; try discriminate H; reflexivity.
Qed.

(** One field of the string read back, and one bound test decided. *)
Ltac read_field :=
  rewrite read_fixed_pad by (simpl; lia); cbn [expect Ascii.eqb Bool.eqb andThen].

Ltac leb_true :=
  match goal with
  | |- context [?a <=? ?b] =>
      replace (a <=? b) with true by (symmetry; apply Z.leb_le; lia)
  end.

Lemma Date_parse_after_year_ISO (y m d tw : Z) :
  1 <= m <= 12 -> 1 <= d <= 31 -> 0 <= tw < msPerDay ->
  valid_time (days_from_civil y m d * msPerDay + tw) ->
  Date_parse_after_year y (ISO_after_year m d tw)
  = Some (days_from_civil y m d * msPerDay + tw).
Proof.
  intros Hm Hd Htw Hv.
  unfold Date_parse_after_year, ISO_after_year.
  unfold valid_time, maxTime, msPerDay in *.
  assert (Hh : 0 <= tw / 3600000 <= 23) by (Z.to_euclidean_division_equations; lia).
  assert (Hmi : 0 <= tw / 60000 mod 60 <= 59) by (Z.to_euclidean_division_equations; lia).
  assert (Hs : 0 <= tw / 1000 mod 60 <= 59) by (Z.to_euclidean_division_equations; lia).
  assert (Hms : 0 <= tw mod 1000 <= 999) by (Z.to_euclidean_division_equations; lia).
  assert (Hsum : tw / 3600000 * 3600000 + tw / 60000 mod 60 * 60000
                 + tw / 1000 mod 60 * 1000 + tw mod 1000 = tw)
    by (Z.to_euclidean_division_equations; lia).
  cbn [expect Ascii.eqb Bool.eqb andThen].
  do 6 read_field.
  repeat leb_true.
  cbn [andb orb].
  replace (days_from_civil y m d * 86400000 + tw / 3600000 * 3600000
           + tw / 60000 mod 60 * 60000 + tw / 1000 mod 60 * 1000 + tw mod 1000)
    with (days_from_civil y m d * 86400000 + tw) by lia.
  repeat leb_true. reflexivity.
Qed.

(** Date.parse(d.toISOString()) is d's time value. *)
Theorem Date_parse_toISOString (t : Z) :
  valid_time t -> Date_parse (toISOString t) = Some t.
Proof.
  intros Hv. unfold toISOString, Date_parse.
  pose proof (civil_from_days_inverse (t / msPerDay)) as H.
  destruct (civil_from_days (t / msPerDay)) as [[y m] d].
  destruct H as (Hm & Hd & Hdays & Hy).
  assert (Htw : 0 <= t mod msPerDay < msPerDay) by (apply Z.mod_pos_bound; reflexivity).
  assert (Ht : days_from_civil y m d * msPerDay + t mod msPerDay = t).
  { rewrite Hdays. pose proof (Z.div_mod t msPerDay). unfold msPerDay in *. lia. }
  assert (Hyr : -999999 <= y <= 999999).
  { unfold valid_time, maxTime, msPerDay in *.
    clear - Hy Hv. Z.to_euclidean_division_equations. lia. }
  pose proof (Date_parse_after_year_ISO y m d (t mod msPerDay) Hm Hd Htw) as Hp.
  rewrite Ht in Hp. specialize (Hp Hv).
  destruct ((0 <=? y) && (y <=? 9999)) eqn:E.
  - apply andb_prop in E. destruct E as [E1 E2]. apply Z.leb_le in E1, E2.
    destruct (pad_starts_with_digit 3 y (ISO_after_year m d (t mod msPerDay)))
      as (c & s & Es & Hc); [simpl; lia|].
    rewrite Es, read_year_digit, <- Es by exact Hc.
    rewrite read_fixed_pad by (simpl; lia). exact Hp.
  - destruct (y <? 0) eqn:Eneg.
    + apply Z.ltb_lt in Eneg. cbn [read_year].
      rewrite read_fixed_pad by (simpl; lia).
      replace (Z.abs y =? 0) with false by (symmetry; apply Z.eqb_neq; lia).
      cbn [andThen]. replace (- Z.abs y) with y by lia. exact Hp.
    + apply Z.ltb_ge in Eneg. cbn [read_year].
      rewrite read_fixed_pad by (simpl; lia).
      cbn [andThen]. replace (Z.abs y) with y by lia. exact Hp.
Qed.

(* ================================================================== *)
(** ** Totals *)

Lemma running_total_app (es more : list Expense) (k : nat) :
  (k <= List.length es)%nat -> running_total (es ++ more) k = running_total es k.
Proof.
  induction k as [|k IH]; intros H; [reflexivity|].
  simpl. rewrite IH by lia. rewrite nth_error_app1 by lia. reflexivity.
Qed.

Lemma fold_left_running_total (es : list Expense) :
  fold_left add_amount es Number.zero = running_total es (List.length es).
Proof.
  induction es as [|e es IH] using rev_ind; [reflexivity|].
  rewrite fold_left_app, length_app, Nat.add_comm. simpl.
  rewrite running_total_app by lia. rewrite <- IH.
  rewrite nth_error_app2 by lia. rewrite Nat.sub_diag. reflexivity.
Qed.

(** C1. [getTotal] of a tracker is the sum of the amounts of its expenses,
    added in order as numbers from zero.  The total is not a field of the
    tracker: it is recomputed from whatever expense list the tracker holds, so
    that one more expense adds its amount to it; with the amounts 10.50 and 5
    the total is 15.50. *)
Theorem getTotal_sum_of_amounts :
  (forall t, getTotal t = sum_of_amounts (expenses t))
  /\ (forall t es, getTotal (with_expenses es t) = sum_of_amounts es)
  /\ (forall t e,
        getTotal (with_expenses (expenses t ++ [e]) t)
        = Number.add (getTotal t) (ToNumber (amount e)))
  /\ (forall t e1 e2,
        expenses t = [e1; e2] ->
        amount e1 = JSNumber (parseFloat "10.50") ->
        amount e2 = JSNumber (parseFloat "5") ->
        getTotal t = parseFloat "15.50").
Proof.
  assert (H : forall t, getTotal t = sum_of_amounts (expenses t)).
  { intros t. apply fold_left_running_total. }
  repeat split.
  - exact H.
  - intros t es. now rewrite H.
  - intros t e. unfold getTotal. simpl. now rewrite fold_left_app.
  - intros t e1 e2 Ht H1 H2. unfold getTotal. rewrite Ht. simpl.
    rewrite H1, H2. vm_compute. reflexivity.
Qed.

(* ================================================================== *)
(** ** Adding a tracker *)

(** What [addTracker] computes when the name is not empty. *)
Lemma addTracker_run (st : App) (w : World) (n : nat) :
  falsy (trackerName st) = false ->
  addTracker st w n =
  let d := match trackerDate st with Some d => d | None => clock w (S n) end in
  let n1 := match trackerDate st with Some _ => S n | None => S (S n) end in
  let newTracker := mkTracker (clock w n) (trackerName st) d [] InProgress false in
  (setTrackerDate (Some (clock w n1))
     (setTrackerName ""
        (setTrackers (sort_pure byDate (trackers st ++ [newTracker])) st)),
   S n1).
Proof.
  intros Hname. unfold addTracker. rewrite Hname.
  destruct (trackerDate st) as [d0|];
    cbv beta iota zeta delta [bind Date_now new_Date ret];
    unfold byDate;
    match goal with
    | |- context [Array_sort _ ?l] =>
        pose proof (Array_sort_by_key (fun t => getTime (date t)) l) as HS;
        unfold ret in HS; cbv beta in HS; rewrite HS
    end; reflexivity.
Qed.

(** C2. With a non-empty name, [addTracker] adds exactly one tracker to the
    list: it has the name typed, the chosen date or else the date read from
    the clock, no expense and the status in progress; the new list holds the
    old trackers and the new one, one more entry in all, and is in ascending
    order of date.  When the old list was in that order already, the new
    tracker is put in its place and nothing else moves. *)
Theorem addTracker_adds_one_sorted (st : App) (w : World) (n : nat) :
  falsy (trackerName st) = false ->
  exists newTracker,
    name newTracker = trackerName st
    /\ date newTracker = match trackerDate st with
                         | Some d => d
                         | None => clock w (S n)
                         end
    /\ id newTracker = clock w n
    /\ expenses newTracker = []
    /\ status newTracker = InProgress
    /\ expanded newTracker = false
    /\ Permutation (trackers (fst (addTracker st w n))) (trackers st ++ [newTracker])
    /\ List.length (trackers (fst (addTracker st w n))) = S (List.length (trackers st))
    /\ sorted_by_date (trackers (fst (addTracker st w n)))
    /\ (sorted_by_date (trackers st) ->
        exists before after,
          trackers st = before ++ after
          /\ trackers (fst (addTracker st w n)) = before ++ newTracker :: after).
Proof.
  intros Hname. rewrite (addTracker_run st w n Hname). cbn [fst trackers setTrackers
    setTrackerName setTrackerDate].
  exists (mkTracker (clock w n) (trackerName st)
            (match trackerDate st with Some d => d | None => clock w (S n) end)
            [] InProgress false).
  repeat split.
  - apply sort_pure_Permutation.
  - rewrite (Permutation_length (sort_pure_Permutation _ _)).
    rewrite length_app. simpl. lia.
  - apply (sort_pure_sorted (fun t => getTime (date t))).
  - intros Hs. apply (sort_pure_snoc_sorted (fun t => getTime (date t))). exact Hs.
Qed.

Lemma addTracker_adds_one_sorted_witness :
  falsy (trackerName demo_state) = false
  /\ exists newTracker,
    name newTracker = trackerName demo_state
    /\ date newTracker = match trackerDate demo_state with
                         | Some d => d
                         | None => clock demo_world 1%nat
                         end
    /\ id newTracker = clock demo_world 0%nat
    /\ expenses newTracker = []
    /\ status newTracker = InProgress
    /\ expanded newTracker = false
    /\ Permutation (trackers (fst (addTracker demo_state demo_world 0%nat)))
                   (trackers demo_state ++ [newTracker])
    /\ List.length (trackers (fst (addTracker demo_state demo_world 0%nat)))
       = S (List.length (trackers demo_state))
    /\ sorted_by_date (trackers (fst (addTracker demo_state demo_world 0%nat)))
    /\ (sorted_by_date (trackers demo_state) ->
        exists before after,
          trackers demo_state = before ++ after
          /\ trackers (fst (addTracker demo_state demo_world 0%nat))
             = before ++ newTracker :: after).
Proof.
  split; [reflexivity|].
  apply (addTracker_adds_one_sorted demo_state demo_world 0%nat). reflexivity.
Defined.

(** The trackers of the example state come out in the order of their dates,
    the new one second. *)
Example addTracker_demo :
  map name (trackers (fst (addTracker demo_state demo_world 0%nat)))
  = ["Food"; "Books"; "Rent"; "Trip"]%string.
Proof. reflexivity. Qed.

(** The session ends with one tracker whose total is 15.50, and what the save
    effect stores of that state loads back as the same state. *)
Example session_total :
  map getTotal (trackers session_state) = [parseFloat "15.50"]
  /\ fst (loadTrackers (saveTrackers session_state (fun _ => None))
                       session_state demo_world 5%nat)
     = Some session_state.
Proof. split; vm_compute; reflexivity. Qed.

(* ================================================================== *)
(** ** Deleting a tracker *)

(** C4. [deleteTracker] is one update of the state that changes the tracker
    list only: no tracker with the given id is left, the trackers with another
    id stay as they are and in their order, every expense still in the state
    belongs to a tracker that was kept, and with no tracker of that id the
    state is unchanged. *)
Theorem deleteTracker_removes_tracker (st : App) (trackerId : Z) :
  let st' := deleteTracker trackerId st in
  Forall (fun t => id t <> trackerId) (trackers st')
  /\ (forall t, In t (trackers st') <-> In t (trackers st) /\ id t <> trackerId)
  /\ filter (fun t => negb (id t =? trackerId)) (trackers st) = trackers st'
  /\ (forall e, In e (flat_map expenses (trackers st')) ->
                exists t, In t (trackers st) /\ id t <> trackerId /\ In e (expenses t))
  /\ (trackerName st' = trackerName st /\ trackerDate st' = trackerDate st
      /\ showDatePicker st' = showDatePicker st
      /\ expenseTitle st' = expenseTitle st /\ expenseAmount st' = expenseAmount st)
  /\ ((forall t, In t (trackers st) -> id t <> trackerId) -> st' = st).
Proof.
  cbv zeta. unfold deleteTracker. cbn [trackers setTrackers trackerName trackerDate
    showDatePicker expenseTitle expenseAmount].
  assert (Hin : forall t, In t (filter (fun t => negb (id t =? trackerId)) (trackers st))
                          <-> In t (trackers st) /\ id t <> trackerId).
  { intros t. rewrite filter_In, negb_true_iff, Z.eqb_neq. reflexivity. }
  repeat split; try reflexivity.
  - apply Forall_forall. intros t Ht. now apply Hin in Ht.
  - now apply Hin.
  - now apply Hin.
  - intros H. now apply Hin.
  - intros e He. apply in_flat_map in He. destruct He as (t & Ht & He).
    apply Hin in Ht. exists t. tauto.
  - intros Habs. clear Hin. destruct st as [ts ? ? ? ? ?]. unfold setTrackers.
    simpl in *. f_equal.
    induction ts as [|t ts IH]; [reflexivity|]. simpl.
    assert (E : (id t =? trackerId) = false) by (apply Z.eqb_neq; apply Habs; now left).
    rewrite E. simpl. f_equal. apply IH. intros t' Ht'. apply Habs. now right.
Qed.

(* ================================================================== *)
(** ** Adding an expense *)

Lemma mapM_ret_in {A B : Type} (f : A -> Eff B) (g : A -> B) (l : list A)
      (w : World) (n : nat) :
  (forall x, In x l -> f x = ret (g x)) -> mapM f l w n = (map g l, n).
Proof.
  induction l as [|x l IH]; intros H; [reflexivity|].
  simpl. unfold bind. rewrite (H x) by now left.
  unfold ret at 1. rewrite IH by (intros y Hy; apply H; now right). reflexivity.
Qed.

Lemma parseFloat_non_numeric (c : ascii) (s : string) :
  starts_number c = false -> parseFloat (String c s) = Number.NaN.
Proof.
  destruct c as [[] [] [] [] [] [] [] []]; intros H; try discriminate H;
    vm_compute; reflexivity.
Qed.

(** C5. With a non-empty title and a non-empty amount string, [addExpense]
    leaves every tracker with another id as it is and gives every tracker with
    the given id one more expense, at the end of its list, with the title given
    and the amount [parseFloat(amount)], whatever that number is: it is NaN
    when the string cannot start a number, and it may be negative or infinite. *)
Theorem addExpense_appends_one (st : App) (trackerId : Z) (titleText amountText : string)
        (w : World) (n : nat) :
  falsy titleText = false -> falsy amountText = false ->
  let st' := fst (addExpense trackerId titleText amountText st w n) in
  Forall2 (fun t t' =>
             if id t =? trackerId then
               exists now,
                 t' = with_expenses (expenses t ++ [newExpense now titleText amountText]) t
                 /\ List.length (expenses t') = S (List.length (expenses t))
             else t' = t)
          (trackers st) (trackers st')
  /\ (forall c s, amountText = String c s -> starts_number c = false ->
                  amount (newExpense 0 titleText amountText) = JSNumber Number.NaN)
  /\ amount (newExpense 0 titleText "-5") = JSNumber (Number.of_Z (-5))
  /\ amount (newExpense 0 titleText "Infinity") = JSNumber (S754_infinity false).
Proof.
  intros Ht Ha. cbv zeta. unfold addExpense. rewrite Ht, Ha. cbn [orb].
  repeat split.
  - unfold bind at 1.
    match goal with
    | |- context [mapM ?f ?l w n] =>
        pose proof (mapM_Forall2 f l w n) as H; destruct (mapM f l w n) as [ts n1]
    end.
    cbn [fst ret trackers setTrackers setExpenseTitle setExpenseAmount] in *.
    eapply Forall2_impl; [|exact H]. clear. intros t t' [k ->]. cbv beta.
    destruct (id t =? trackerId); [|reflexivity].
    exists (clock w k). split; [reflexivity|].
    cbn. rewrite length_app. simpl. lia.
  - intros c s -> Hc. unfold newExpense. cbn [amount].
    now rewrite parseFloat_non_numeric.
Qed.

Lemma addExpense_appends_one_witness :
  falsy "Cheese" = false /\ falsy "abc" = false
  /\ let st' := fst (addExpense 12 "Cheese" "abc" demo_state demo_world 0%nat) in
     Forall2 (fun t t' =>
                if id t =? 12 then
                  exists now,
                    t' = with_expenses (expenses t ++ [newExpense now "Cheese" "abc"]) t
                    /\ List.length (expenses t') = S (List.length (expenses t))
                else t' = t)
             (trackers demo_state) (trackers st')
     /\ (forall c s, "abc"%string = String c s -> starts_number c = false ->
                     amount (newExpense 0 "Cheese" "abc") = JSNumber Number.NaN)
     /\ amount (newExpense 0 "Cheese" "-5") = JSNumber (Number.of_Z (-5))
     /\ amount (newExpense 0 "Cheese" "Infinity") = JSNumber (S754_infinity false).
Proof.
  split; [reflexivity|]. split; [reflexivity|].
  apply (addExpense_appends_one demo_state 12 "Cheese" "abc" demo_world 0%nat); reflexivity.
Defined.

(* ================================================================== *)
(** ** Invalid input *)

(** C6. The handlers are total functions from states to states and have no
    error result.  On invalid input they leave the whole state as it is and
    do not even read the clock: [addTracker] with an empty name, [addExpense]
    with an empty title or an empty amount. *)
Theorem invalid_input_is_noop (st : App) (w : World) (n : nat) :
  (falsy (trackerName st) = true -> addTracker st w n = (st, n))
  /\ (forall trackerId title amount,
        falsy title = true \/ falsy amount = true ->
        addExpense trackerId title amount st w n = (st, n))
  /\ (forall trackerId amount, addExpense trackerId "" amount st w n = (st, n))
  /\ (forall trackerId title, addExpense trackerId title "" st w n = (st, n)).
Proof.
  repeat split.
  - intros H. unfold addTracker. now rewrite H.
  - intros trackerId title amount [H|H]; unfold addExpense; rewrite H;
      [|rewrite orb_true_r]; reflexivity.
  - intros trackerId title. unfold addExpense. simpl. now rewrite orb_true_r.
Qed.

(* ================================================================== *)
(** ** The status of a tracker *)

Lemma flip_valid (s : string) : valid_status (flip s).
Proof. unfold flip, valid_status. destruct (String.eqb s InProgress); auto. Qed.

Lemma flip_flip (s : string) : valid_status s -> flip (flip s) = s.
Proof. intros [->| ->]; reflexivity. Qed.

Lemma with_status_same (t : ExpenseTracker) : with_status (status t) t = t.
Proof. now destruct t. Qed.

Lemma setTrackers_same (st : App) : setTrackers (trackers st) st = st.
Proof. now destruct st. Qed.

(** C7. Over trackers whose status is one of the two values of its type,
    toggling the status of a tracker twice gives back the state: one toggle
    turns in progress into cleared and cleared into in progress. *)
Theorem toggleStatus_twice (st : App) (trackerId : Z) :
  (forall t, In t (trackers st) -> id t = trackerId -> valid_status (status t)) ->
  toggleStatus trackerId (toggleStatus trackerId st) = st
  /\ Forall2 (fun t t' =>
                if id t =? trackerId then
                  t' = with_status (flip (status t)) t
                  /\ (status t = InProgress -> status t' = Cleared)
                  /\ (status t = Cleared -> status t' = InProgress)
                else t' = t)
             (trackers st) (trackers (toggleStatus trackerId st)).
Proof.
  intros Hv. split.
  - unfold toggleStatus. cbn [trackers setTrackers].
    transitivity (setTrackers (trackers st) st); [|apply setTrackers_same].
    unfold setTrackers. cbn [trackers trackerName trackerDate showDatePicker expenseTitle
      expenseAmount]. f_equal.
    rewrite map_map. transitivity (map (fun t => t) (trackers st)); [|apply map_id].
    apply map_ext_in. intros t Ht.
    destruct (id t =? trackerId) eqn:E; cbn [id with_status]; rewrite E; [|reflexivity].
    apply Z.eqb_eq in E.
    change (with_status (flip (flip (status t))) (with_status (flip (status t)) t) = t).
    rewrite flip_flip by now apply Hv.
    destruct t; reflexivity.
  - unfold toggleStatus. cbn [trackers setTrackers]. clear Hv.
    induction (trackers st) as [|t ts IH]; [constructor|].
    simpl. constructor; [|exact IH].
    destruct (id t =? trackerId); [|reflexivity].
    fold (flip (status t)). cbn [status with_status].
    repeat split; intros ->; reflexivity.
Qed.

Lemma toggleStatus_twice_witness :
  (forall t, In t (trackers demo_state) -> id t = 12 -> valid_status (status t))
  /\ toggleStatus 12 (toggleStatus 12 demo_state) = demo_state
  /\ Forall2 (fun t t' =>
                if id t =? 12 then
                  t' = with_status (flip (status t)) t
                  /\ (status t = InProgress -> status t' = Cleared)
                  /\ (status t = Cleared -> status t' = InProgress)
                else t' = t)
             (trackers demo_state) (trackers (toggleStatus 12 demo_state)).
Proof.
  assert (H : forall t, In t (trackers demo_state) -> id t = 12 -> valid_status (status t)).
  { intros t [<-|[<-|[<-|[]]]] _; unfold valid_status; simpl; auto. }
  split; [exact H|]. apply (toggleStatus_twice demo_state 12 H).
Defined.

Lemma Forall2_Forall {A B : Type} (R : A -> B -> Prop) (P : A -> Prop) (Q : B -> Prop)
      (l : list A) (l' : list B) :
  Forall2 R l l' -> (forall x y, R x y -> P x -> Q y) -> Forall P l -> Forall Q l'.
Proof.
  intros H HR. induction H as [|x y l l' Hxy _ IH]; intros HP; [constructor|].
  inversion HP; subst. constructor; [eapply HR; eassumption|now apply IH].
Qed.

(** C9. Every operation on the tracker list keeps the status of each tracker
    among the two values: a new tracker is in progress, a toggled status is
    one of the two whatever it was, and the other operations do not write the
    field. *)
Theorem status_invariant_preserved (st : App) :
  status_invariant st ->
  forall (w : World) (n : nat) (trackerId expenseId : Z) (titleText amountText : string),
    status_invariant (fst (addTracker st w n))
    /\ status_invariant (deleteTracker trackerId st)
    /\ status_invariant (fst (addExpense trackerId titleText amountText st w n))
    /\ status_invariant (deleteExpense trackerId expenseId st)
    /\ status_invariant (toggleStatus trackerId st)
    /\ status_invariant (toggleExpand trackerId st).
Proof.
  unfold status_invariant. intros Hinv w n trackerId expenseId titleText amountText.
  assert (Hmap : forall f : ExpenseTracker -> ExpenseTracker,
             (forall t, valid_status (status t) -> valid_status (status (f t))) ->
             Forall (fun t => valid_status (status t)) (map f (trackers st))).
  { intros f Hf. apply Forall_map. eapply Forall_impl; [|exact Hinv]. exact Hf. }
  repeat split.
  - destruct (falsy (trackerName st)) eqn:E.
    + unfold addTracker. rewrite E. exact Hinv.
    + rewrite (addTracker_run st w n E). cbn [fst trackers setTrackers setTrackerName
        setTrackerDate].
      eapply Permutation_Forall; [apply Permutation_sym, sort_pure_Permutation|].
      apply Forall_app. split; [exact Hinv|]. constructor; [|constructor].
      left. reflexivity.
  - unfold deleteTracker. cbn [trackers setTrackers].
    apply Forall_forall. intros t Ht. apply filter_In in Ht.
    rewrite Forall_forall in Hinv. now apply Hinv.
  - unfold addExpense. destruct (falsy titleText || falsy amountText); [exact Hinv|].
    unfold bind at 1.
    match goal with
    | |- context [mapM ?f ?l w n] =>
        pose proof (mapM_Forall2 f l w n) as H; destruct (mapM f l w n) as [ts n1]
    end.
    cbn [fst ret trackers setTrackers setExpenseTitle setExpenseAmount] in *.
    eapply Forall2_Forall; [exact H| |exact Hinv].
    intros t t' [k ->] Ht. cbv beta. destruct (id t =? trackerId); exact Ht.
  - unfold deleteExpense. cbn [trackers setTrackers]. apply Hmap.
    intros t Ht. destruct (id t =? trackerId); exact Ht.
  - unfold toggleStatus. cbn [trackers setTrackers]. apply Hmap.
    intros t Ht. destruct (id t =? trackerId); [apply flip_valid|exact Ht].
  - unfold toggleExpand. cbn [trackers setTrackers]. apply Hmap.
    intros t Ht. destruct (id t =? trackerId); exact Ht.
Qed.

Lemma status_invariant_preserved_witness :
  status_invariant demo_state
  /\ forall (w : World) (n : nat) (trackerId expenseId : Z) (titleText amountText : string),
    status_invariant (fst (addTracker demo_state w n))
    /\ status_invariant (deleteTracker trackerId demo_state)
    /\ status_invariant (fst (addExpense trackerId titleText amountText demo_state w n))
    /\ status_invariant (deleteExpense trackerId expenseId demo_state)
    /\ status_invariant (toggleStatus trackerId demo_state)
    /\ status_invariant (toggleExpand trackerId demo_state).
Proof.
  assert (H : status_invariant demo_state).
  { unfold status_invariant. simpl.
    repeat (apply Forall_cons || apply Forall_nil); unfold valid_status; simpl; auto. }
  split; [exact H|]. apply (status_invariant_preserved demo_state H).
Defined.

(* ================================================================== *)
(** ** Operations on a tracker that is not there *)

(** C10. With no tracker of the given id in the list, [addExpense],
    [deleteExpense], [toggleStatus] and [toggleExpand] leave the tracker list
    as it is; the last three leave the whole state, and [addExpense] does not
    read the clock. *)
Theorem absent_id_is_noop (st : App) (trackerId : Z) :
  (forall t, In t (trackers st) -> id t <> trackerId) ->
  forall (w : World) (n : nat) (expenseId : Z) (titleText amountText : string),
    trackers (fst (addExpense trackerId titleText amountText st w n)) = trackers st
    /\ snd (addExpense trackerId titleText amountText st w n) = n
    /\ deleteExpense trackerId expenseId st = st
    /\ toggleStatus trackerId st = st
    /\ toggleExpand trackerId st = st.
Proof.
  intros Habs w n expenseId titleText amountText.
  assert (Hmap : forall f g : ExpenseTracker -> ExpenseTracker,
             setTrackers (map (fun t => if id t =? trackerId then f t else g t)
                              (trackers st)) st
             = setTrackers (map g (trackers st)) st).
  { intros f g. f_equal. apply map_ext_in. intros t Ht.
    apply Habs, Z.eqb_neq in Ht. now rewrite Ht. }
  assert (Hid : setTrackers (map (fun t => t) (trackers st)) st = st).
  { rewrite map_id. apply setTrackers_same. }
  assert (Hadd : forall k,
             mapM (fun tracker =>
                     if id tracker =? trackerId then
                       now <- Date_now ;;
                       ret (with_expenses
                              (expenses tracker
                               ++ [mkExpense now titleText (JSNumber (parseFloat amountText))])
                              tracker)
                     else ret tracker) (trackers st) w k
             = (map (fun t => t) (trackers st), k)).
  { intros k. apply mapM_ret_in. intros t Ht.
    apply Habs, Z.eqb_neq in Ht. now rewrite Ht. }
  repeat split.
  - unfold addExpense. destruct (falsy titleText || falsy amountText); [reflexivity|].
    unfold bind at 1. rewrite Hadd. cbn. apply map_id.
  - unfold addExpense. destruct (falsy titleText || falsy amountText); [reflexivity|].
    unfold bind at 1. rewrite Hadd. reflexivity.
  - unfold deleteExpense. rewrite Hmap. exact Hid.
  - unfold toggleStatus. rewrite Hmap. exact Hid.
  - unfold toggleExpand. rewrite Hmap. exact Hid.
Qed.

Lemma absent_id_is_noop_witness :
  (forall t, In t (trackers demo_state) -> id t <> 99)
  /\ forall (w : World) (n : nat) (expenseId : Z) (titleText amountText : string),
    trackers (fst (addExpense 99 titleText amountText demo_state w n))
    = trackers demo_state
    /\ snd (addExpense 99 titleText amountText demo_state w n) = n
    /\ deleteExpense 99 expenseId demo_state = demo_state
    /\ toggleStatus 99 demo_state = demo_state
    /\ toggleExpand 99 demo_state = demo_state.
Proof.
  assert (H : forall t, In t (trackers demo_state) -> id t <> 99).
  { intros t [<-|[<-|[<-|[]]]]; discriminate. }
  split; [exact H|]. apply (absent_id_is_noop demo_state 99 H).
Defined.

(* ================================================================== *)
(** ** Saving and loading *)

Lemma JSON_value_storable (v : JSValue) : storable_amount v = true -> JSON_value v = v.
Proof.
  destruct v as [[[]| | |]|]; simpl; intros H; try discriminate H; reflexivity.
Qed.

Lemma traverse_rehydrate_stringify (ts : list ExpenseTracker) :
  Forall storable ts -> traverse rehydrate (JSON_stringify ts) = Some ts.
Proof.
  induction 1 as [|t ts [Hd He] _ IH]; [reflexivity|].
  unfold JSON_stringify in *. cbn [map traverse]. rewrite IH.
  unfold rehydrate. cbn [stored_date stored_id stored_name stored_expenses stored_status
    stored_expanded].
  rewrite Date_parse_toISOString by exact Hd.
  replace (map _ (expenses t)) with (expenses t); [now destruct t|].
  induction He as [|e es He _ IHe]; [reflexivity|].
  cbn [map]. rewrite <- IHe, JSON_value_storable by exact He. now destruct e.
Qed.

(** With any amounts, what is read back is the reloaded list. *)
Lemma traverse_rehydrate_reloaded (ts : list ExpenseTracker) :
  Forall (fun t => valid_time (getTime (date t))) ts ->
  traverse rehydrate (JSON_stringify ts) = Some (map reloaded ts).
Proof.
  induction 1 as [|t ts Hd _ IH]; [reflexivity|].
  unfold JSON_stringify in *. cbn [map traverse]. rewrite IH.
  unfold rehydrate. cbn [stored_date stored_id stored_name stored_expenses stored_status
    stored_expanded].
  now rewrite Date_parse_toISOString by exact Hd.
Qed.

Lemma getItem_saveTrackers (st : App) (storage : AsyncStorage) :
  getItem "trackers" (saveTrackers st storage) = Some (JSON_stringify (trackers st)).
Proof. reflexivity. Qed.

(** C3, as the code has it.  When the dates are valid time values and every
    amount is [null] or a finite number other than negative zero, loading what
    the save effect stored gives the saved trackers back, each with all its
    fields and its expenses in their order; the list is rearranged by the
    loader's sort, and the rest of the state is left as it was. *)
Theorem load_after_save_restores (st st0 : App) (storage : AsyncStorage)
        (w : World) (n : nat) :
  Forall storable (trackers st) ->
  exists st',
    fst (loadTrackers (saveTrackers st storage) st0 w n) = Some st'
    /\ Permutation (trackers st') (trackers st)
    /\ st' = setTrackers (trackers st') st0.
Proof.
  intros H. unfold loadTrackers.
  rewrite getItem_saveTrackers, traverse_rehydrate_stringify by exact H.
  unfold bind.
  pose proof (Array_sort_Permutation byProximity (trackers st) w n) as HP.
  destruct (Array_sort byProximity (trackers st) w n) as [sorted n1].
  cbn [fst ret] in *. eexists. split; [reflexivity|]. split; [exact HP|reflexivity].
Qed.

Lemma demo_storable : Forall storable (trackers demo_state).
Proof.
  repeat (apply Forall_cons || apply Forall_nil); split;
    try (unfold valid_time, maxTime, getTime; simpl; lia);
    repeat (apply Forall_cons || apply Forall_nil); reflexivity.
Qed.

Lemma load_after_save_restores_witness :
  Forall storable (trackers demo_state)
  /\ exists st',
    fst (loadTrackers (saveTrackers demo_state (fun _ => None)) demo_state demo_world 0%nat)
    = Some st'
    /\ Permutation (trackers st') (trackers demo_state)
    /\ st' = setTrackers (trackers st') demo_state.
Proof.
  split; [exact demo_storable|].
  apply (load_after_save_restores demo_state demo_state (fun _ => None) demo_world 0%nat
           demo_storable).
Defined.

(** C3, as stated, fails: an amount that is NaN is stored as [null], and the
    reloaded tracker is not the saved one.  Its total, NaN before, is 15.50
    after the reload. *)
Lemma reload_loses_NaN_amount :
  exists st',
    fst (loadTrackers (saveTrackers nan_state (fun _ => None)) nan_state demo_world 6%nat)
    = Some st'
    /\ ~ Permutation (trackers st') (trackers nan_state)
    /\ map (fun t => map amount (expenses t)) (trackers nan_state)
       = [[JSNumber (parseFloat "10.50"); JSNumber (parseFloat "5"); JSNumber Number.NaN]]
    /\ map (fun t => map amount (expenses t)) (trackers st')
       = [[JSNumber (parseFloat "10.50"); JSNumber (parseFloat "5"); JSNull]]
    /\ map getTotal (trackers nan_state) = [Number.NaN]
    /\ map getTotal (trackers st') = [parseFloat "15.50"].
Proof.
  eexists. split; [vm_compute; reflexivity|].
  split; [|repeat split; vm_compute; reflexivity].
  intros HP.
  apply (Permutation_map (fun t => map amount (expenses t))) in HP.
  vm_compute in HP. apply Permutation_length_1 in HP. discriminate HP.
Qed.

(* ================================================================== *)
(** ** The order of the loaded list *)

(** C8, as the code has it.  The comparator reads the clock at every
    comparison, and which comparisons are made is the engine's affair.  On
    every engine whose [sort] puts an array in the order of its keys when the
    comparator subtracts integer keys, loading a list that the save effect
    stored, with dates that are time values of a Date: when all the readings
    that this engine's comparisons take during the load are one and the same
    time [now], the loaded list is in order of distance from [now]: it holds
    the stored trackers, and each is at most as far from [now] as the next. *)
Theorem loadTrackers_sorted_by_proximity (engine : Engine) (saved st : App)
        (storage : AsyncStorage) (w : World) (n : nat) (now : Z) :
  sorts engine ->
  Forall (fun t => valid_time (getTime (date t))) (trackers saved) ->
  (forall i,
     (n <= i < snd (loadTrackers_on engine (saveTrackers saved storage) st w n))%nat ->
     clock w i = now) ->
  exists st',
    fst (loadTrackers_on engine (saveTrackers saved storage) st w n) = Some st'
    /\ Permutation (trackers st') (map reloaded (trackers saved))
    /\ sorted_by_proximity now (trackers st').
Proof.
  intros Hengine Hdates. unfold loadTrackers_on.
  rewrite getItem_saveTrackers, traverse_rehydrate_reloaded by exact Hdates.
  unfold bind, Array_sort_on.
  destruct byProximity_reads_twice as [E _]. rewrite E.
  pose proof (consult_reads_twice_steady proximity_gap now
                (engine ExpenseTracker (map reloaded (trackers saved))) w n) as Hsteady.
  destruct (Hengine ExpenseTracker (proximity now) (map reloaded (trackers saved)))
    as [HP HS].
  destruct (consult (engine ExpenseTracker (map reloaded (trackers saved)))
                    (reads_twice proximity_gap) w n) as [sorted n1].
  cbn [fst snd ret] in *. intros Hclock. specialize (Hsteady Hclock). subst sorted.
  eexists. split; [reflexivity|]. cbn [trackers setTrackers].
  split; [exact HP|].
  intros i a b Ha Hb.
  eapply (StronglySorted_adjacent (proximity now)); [exact HS|exact Ha|exact Hb].
Qed.

Lemma demo_dates :
  Forall (fun t => valid_time (getTime (date t))) (trackers demo_state).
Proof.
  eapply Forall_impl; [|exact demo_storable]. intros t [H _]. exact H.
Qed.

Lemma loadTrackers_sorted_by_proximity_witness :
  sorts (insertion_engine true)
  /\ Forall (fun t => valid_time (getTime (date t))) (trackers demo_state)
  /\ (forall i,
        (0 <= i < snd (loadTrackers_on (insertion_engine true)
                                       (saveTrackers demo_state (fun _ => None))
                                       demo_state steady_world 0))%nat ->
        clock steady_world i = 1700000000000)
  /\ exists st',
      fst (loadTrackers_on (insertion_engine true)
                           (saveTrackers demo_state (fun _ => None))
                           demo_state steady_world 0%nat)
      = Some st'
      /\ Permutation (trackers st') (map reloaded (trackers demo_state))
      /\ sorted_by_proximity 1700000000000 (trackers st').
Proof.
  assert (H3 : forall i,
             (0 <= i < snd (loadTrackers_on (insertion_engine true)
                                            (saveTrackers demo_state (fun _ => None))
                                            demo_state steady_world 0))%nat ->
             clock steady_world i = 1700000000000) by reflexivity.
  split; [exact (insertion_engine_sorts true)|]. split; [exact demo_dates|].
  split; [exact H3|].
  apply (loadTrackers_sorted_by_proximity (insertion_engine true) demo_state demo_state
           (fun _ => None) steady_world 0%nat 1700000000000
           (insertion_engine_sorts true) demo_dates H3).
Defined.

(** C8, as stated, fails, whichever argument the engine passes first.  With
    a clock that advances by one millisecond from a reading to the next, the
    one comparison of the load finds the two trackers equally far, each from
    its own reading, and leaves them as they are stored: the older of two
    past trackers first when the earlier element is compared first, the later
    of two coming trackers first when the later element is compared first.
    At no reading of the clock, up to the dates of the coming trackers, is the
    loaded list in order of distance. *)
Lemma load_order_depends_on_clock :
  (exists st',
      fst (loadTrackers (saveTrackers past_state (fun _ => None)) past_state
                        (ticking false) 0%nat) = Some st'
      /\ trackers st' = trackers past_state
      /\ forall i, ~ sorted_by_proximity (clock (ticking false) i) (trackers st'))
  /\ (exists st',
        fst (loadTrackers (saveTrackers future_state (fun _ => None)) future_state
                          (ticking true) 0%nat) = Some st'
        /\ trackers st' = trackers future_state
        /\ forall i, Z.of_nat i <= 999999 ->
                     ~ sorted_by_proximity (clock (ticking true) i) (trackers st')).
Proof.
  split.
  - eexists. split; [vm_compute; reflexivity|]. split; [reflexivity|].
    intros i H. specialize (H 0%nat _ _ eq_refl eq_refl).
    unfold proximity, ticking, getTime in H. cbn [date clock] in H. lia.
  - eexists. split; [vm_compute; reflexivity|]. split; [reflexivity|].
    intros i Hi H. specialize (H 0%nat _ _ eq_refl eq_refl).
    unfold proximity, ticking, getTime in H. cbn [date clock] in H. lia.
Qed.

(* ================================================================== *)
(** * Further properties of the handlers *)

(** ** Deleting an expense, expanding a tracker *)

Lemma setTrackers_map_ext (f g : ExpenseTracker -> ExpenseTracker) (st : App) :
  (forall t, In t (trackers st) -> f t = g t) ->
  setTrackers (map f (trackers st)) st = setTrackers (map g (trackers st)) st.
Proof. intros H. f_equal. now apply map_ext_in. Qed.

Lemma with_expenses_same (t : ExpenseTracker) : with_expenses (expenses t) t = t.
Proof. now destruct t. Qed.

Lemma with_expanded_same (t : ExpenseTracker) : with_expanded (expanded t) t = t.
Proof. now destruct t. Qed.

Lemma filter_id_when_all {A : Type} (p : A -> bool) (l : list A) :
  (forall x, In x l -> p x = true) -> filter p l = l.
Proof.
  induction l as [|x l IH]; intros H; [reflexivity|].
  simpl. rewrite (H x) by now left. f_equal. apply IH. intros y Hy. apply H. now right.
Qed.

(** X1. [deleteExpense] takes from every tracker of the given id the
    expenses of the given id and nothing else: the other expenses stay, in
    their order, the other trackers and the rest of the state are untouched.
    Deleting again changes nothing, and neither does deleting an expense that
    is not there. *)
Theorem deleteExpense_removes_expense (st : App) (trackerId expenseId : Z) :
  let st' := deleteExpense trackerId expenseId st in
  Forall2 (fun t t' =>
             if id t =? trackerId then
               t' = with_expenses (expenses t') t
               /\ expenses t'
                  = filter (fun e => negb (expense_id e =? expenseId)) (expenses t)
               /\ (forall e, In e (expenses t')
                             <-> In e (expenses t) /\ expense_id e <> expenseId)
               /\ (List.length (expenses t') <= List.length (expenses t))%nat
             else t' = t)
          (trackers st) (trackers st')
  /\ deleteExpense trackerId expenseId st' = st'
  /\ ((forall t e, In t (trackers st) -> id t = trackerId ->
                   In e (expenses t) -> expense_id e <> expenseId) ->
      st' = st)
  /\ (trackerName st' = trackerName st /\ trackerDate st' = trackerDate st
      /\ showDatePicker st' = showDatePicker st
      /\ expenseTitle st' = expenseTitle st /\ expenseAmount st' = expenseAmount st).
Proof.
  cbv zeta. unfold deleteExpense. cbn [trackers setTrackers trackerName trackerDate
    showDatePicker expenseTitle expenseAmount].
  split; [|split; [|split; [|repeat split]]].
  - induction (trackers st) as [|t ts IH]; [constructor|].
    cbn [map]. constructor; [|exact IH].
    destruct (id t =? trackerId); [|reflexivity].
    cbn [expenses with_expenses].
    split; [reflexivity|]. split; [reflexivity|]. split; [|apply filter_length_le].
    intros e. rewrite filter_In, negb_true_iff, Z.eqb_neq. reflexivity.
  - unfold setTrackers at 1 3. cbn [trackers trackerName trackerDate showDatePicker
      expenseTitle expenseAmount]. unfold setTrackers. f_equal.
    rewrite map_map. apply map_ext. intros t.
    destruct (id t =? trackerId) eqn:E; cbn [id with_expenses]; rewrite E; [|reflexivity].
    unfold with_expenses. cbn [id name date expenses status expanded]. f_equal.
    apply filter_id_when_all. intros e He. apply filter_In in He. tauto.
  - intros H.
    transitivity (setTrackers (map (fun t => t) (trackers st)) st);
      [|rewrite map_id; apply setTrackers_same].
    apply setTrackers_map_ext. intros t Ht.
    destruct (id t =? trackerId) eqn:E; [|reflexivity].
    apply Z.eqb_eq in E. rewrite filter_id_when_all; [apply with_expenses_same|].
    intros e He. apply negb_true_iff, Z.eqb_neq. now apply (H t).
Qed.

(** X2. [toggleExpand] turns the flag of every tracker of the given id and
    changes nothing else, so that the totals, statuses and expenses shown are
    those of before; toggling twice gives back the state. *)
Theorem toggleExpand_twice (st : App) (trackerId : Z) :
  toggleExpand trackerId (toggleExpand trackerId st) = st
  /\ Forall2 (fun t t' =>
                t' = with_expanded (if id t =? trackerId then negb (expanded t)
                                    else expanded t) t)
             (trackers st) (trackers (toggleExpand trackerId st))
  /\ map getTotal (trackers (toggleExpand trackerId st)) = map getTotal (trackers st)
  /\ map status (trackers (toggleExpand trackerId st)) = map status (trackers st)
  /\ map expenses (trackers (toggleExpand trackerId st)) = map expenses (trackers st).
Proof.
  unfold toggleExpand. cbn [trackers setTrackers].
  split; [|split; [|repeat split]].
  - transitivity (setTrackers (map (fun t => t) (trackers st)) st);
      [|rewrite map_id; apply setTrackers_same].
    unfold setTrackers.
    cbn [trackers trackerName trackerDate showDatePicker expenseTitle expenseAmount].
    f_equal. rewrite map_map. apply map_ext. intros t.
    destruct (id t =? trackerId) eqn:E; cbn [id with_expanded]; rewrite E; [|reflexivity].
    cbn [expanded with_expanded]. rewrite negb_involutive. now destruct t.
  - induction (trackers st) as [|t ts IH]; [constructor|].
    cbn [map]. constructor; [|exact IH].
    destruct (id t =? trackerId); [reflexivity|]. symmetry. apply with_expanded_same.
  - rewrite map_map. apply map_ext. intros t. now destruct (id t =? trackerId).
  - rewrite map_map. apply map_ext. intros t. now destruct (id t =? trackerId).
  - rewrite map_map. apply map_ext. intros t. now destruct (id t =? trackerId).
Qed.

(** ** The order of the presses *)

Lemma filter_swap {A : Type} (p q : A -> bool) (l : list A) :
  filter p (filter q l) = filter q (filter p l).
Proof.
  induction l as [|x l IH]; [reflexivity|].
  simpl. destruct (p x) eqn:P, (q x) eqn:Q; simpl; rewrite ?P, ?Q, IH; reflexivity.
Qed.

Lemma filter_map_same {A : Type} (p : A -> bool) (f : A -> A) (l : list A) :
  (forall x, p (f x) = p x) -> filter p (map f l) = map f (filter p l).
Proof.
  intros H. induction l as [|x l IH]; [reflexivity|].
  simpl. rewrite H. destruct (p x); simpl; now rewrite IH.
Qed.

(** Two maps over the trackers, each by identifier, one after the other. *)
Ltac by_tracker a b :=
  unfold toggleStatus, toggleExpand, deleteExpense, deleteTracker, setTrackers;
  cbn [trackers trackerName trackerDate showDatePicker expenseTitle expenseAmount];
  f_equal; rewrite ?map_map;
  try (rewrite filter_map_same
        by (intros t; destruct (id t =? _); reflexivity));
  rewrite ?map_map;
  try (apply map_ext; intros t;
       destruct (id t =? a) eqn:Ea; destruct (id t =? b) eqn:Eb;
       cbn [id with_status with_expanded with_expenses]; rewrite ?Ea, ?Eb;
       cbn [id with_status with_expanded with_expenses]; rewrite ?Ea, ?Eb;
       try reflexivity).

(** X3. The presses on the cards can be made in either order: toggling the
    status, expanding, deleting an expense and deleting a tracker commute
    with one another, on the same tracker or on two. *)
Theorem handlers_commute (st : App) (a b x y : Z) :
  toggleStatus a (toggleExpand b st) = toggleExpand b (toggleStatus a st)
  /\ deleteExpense a x (toggleExpand b st) = toggleExpand b (deleteExpense a x st)
  /\ deleteExpense a x (toggleStatus b st) = toggleStatus b (deleteExpense a x st)
  /\ deleteTracker a (toggleExpand b st) = toggleExpand b (deleteTracker a st)
  /\ deleteTracker a (toggleStatus b st) = toggleStatus b (deleteTracker a st)
  /\ deleteTracker a (deleteExpense b x st) = deleteExpense b x (deleteTracker a st)
  /\ toggleExpand a (toggleExpand b st) = toggleExpand b (toggleExpand a st)
  /\ toggleStatus a (toggleStatus b st) = toggleStatus b (toggleStatus a st)
  /\ deleteExpense a x (deleteExpense b y st) = deleteExpense b y (deleteExpense a x st)
  /\ deleteTracker a (deleteTracker b st) = deleteTracker b (deleteTracker a st).
Proof.
  repeat apply conj; try solve [by_tracker a b].
  - by_tracker a b. unfold with_expenses. cbn [id name date expenses status expanded].
    f_equal. apply filter_swap.
  - by_tracker a b. apply filter_swap.
Qed.

(** ** An expense added and deleted again *)

(** The callback of [map] in [addExpense], and what it makes of a tracker
    when the clock reads [now]. *)
Lemma addExpense_absent (trackerId : Z) (titleText amountText : string)
      (l : list ExpenseTracker) (w : World) (n : nat) :
  (forall t, In t l -> id t <> trackerId) ->
  mapM (fun tracker =>
          if id tracker =? trackerId then
            now <- Date_now ;;
            ret (with_expenses
                   (expenses tracker
                    ++ [mkExpense now titleText (JSNumber (parseFloat amountText))])
                   tracker)
          else ret tracker) l w n = (l, n).
Proof.
  intros H. rewrite (mapM_ret_in _ (fun t => t)); [now rewrite map_id|].
  intros t Ht. apply H in Ht. apply Z.eqb_neq in Ht. now rewrite Ht.
Qed.

(** With distinct tracker ids the clock is read at most once, and the new
    expense has that reading for its id. *)
Lemma addExpense_unique (trackerId : Z) (titleText amountText : string)
      (l : list ExpenseTracker) (w : World) (n : nat) :
  NoDup (map id l) ->
  fst (mapM (fun tracker =>
               if id tracker =? trackerId then
                 now <- Date_now ;;
                 ret (with_expenses
                        (expenses tracker
                         ++ [mkExpense now titleText (JSNumber (parseFloat amountText))])
                        tracker)
               else ret tracker) l w n)
  = map (fun t => if id t =? trackerId
                  then with_expenses
                         (expenses t ++ [newExpense (clock w n) titleText amountText]) t
                  else t) l.
Proof.
  induction l as [|t l IH]; intros Hnd; [reflexivity|].
  cbn [map] in Hnd. inversion Hnd as [|? ? Hnotin Hnd']; subst.
  cbn [mapM map]. unfold bind at 1.
  destruct (id t =? trackerId) eqn:E.
  - apply Z.eqb_eq in E.
    assert (Habs : forall t', In t' l -> id t' <> trackerId).
    { intros t' Ht' Heq. apply Hnotin. rewrite E, <- Heq. now apply in_map. }
    pose proof (addExpense_absent trackerId titleText amountText l w (S n) Habs) as HA.
    unfold bind, Date_now, ret in HA |- *. rewrite HA. cbn [fst]. f_equal.
    transitivity (map (fun t => t) l); [now rewrite map_id|].
    apply map_ext_in. intros t' Ht'. apply Habs in Ht'. apply Z.eqb_neq in Ht'.
    now rewrite Ht'.
  - unfold ret at 1. unfold bind. specialize (IH Hnd').
    destruct (mapM _ l w n) as [ts n1]. cbn [fst ret] in *. now rewrite IH.
Qed.

(** X4. With distinct tracker ids, an expense that was just added is taken
    away again by [deleteExpense] with the clock reading of the addition,
    provided no expense of that tracker has this reading for its id already:
    the tracker list is the one of before. *)
Theorem deleteExpense_after_addExpense (st : App) (trackerId : Z)
        (titleText amountText : string) (w : World) (n : nat) :
  NoDup (map id (trackers st)) ->
  (forall t e, In t (trackers st) -> id t = trackerId -> In e (expenses t) ->
               expense_id e <> clock w n) ->
  trackers (deleteExpense trackerId (clock w n)
              (fst (addExpense trackerId titleText amountText st w n)))
  = trackers st.
Proof.
  intros Hnd Hfresh.
  assert (Hold : forall t, In t (trackers st) -> id t = trackerId ->
                           filter (fun e => negb (expense_id e =? clock w n)) (expenses t)
                           = expenses t).
  { intros t Ht Hid. apply filter_id_when_all. intros e He.
    apply negb_true_iff, Z.eqb_neq. now apply (Hfresh t). }
  unfold addExpense. destruct (falsy titleText || falsy amountText).
  - cbn [fst ret]. unfold deleteExpense. cbn [trackers setTrackers].
    transitivity (map (fun t => t) (trackers st)); [|apply map_id].
    apply map_ext_in. intros t Ht. destruct (id t =? trackerId) eqn:E; [|reflexivity].
    apply Z.eqb_eq in E. rewrite Hold by assumption. apply with_expenses_same.
  - unfold bind at 1.
    pose proof (addExpense_unique trackerId titleText amountText (trackers st) w n Hnd) as HU.
    destruct (mapM _ (trackers st) w n) as [ts n1]. cbn [fst ret] in *. subst ts.
    unfold deleteExpense.
    cbn [trackers setTrackers setExpenseTitle setExpenseAmount].
    rewrite map_map.
    transitivity (map (fun t => t) (trackers st)); [|apply map_id].
    apply map_ext_in. intros t Ht.
    destruct (id t =? trackerId) eqn:E; cbn [id with_expenses]; rewrite E; [|reflexivity].
    apply Z.eqb_eq in E. unfold with_expenses at 1.
    cbn [id name date expenses status expanded with_expenses].
    rewrite filter_app, Hold by assumption.
    unfold newExpense. cbn [filter expense_id]. rewrite Z.eqb_refl. cbn [negb].
    rewrite app_nil_r. apply with_expenses_same.
Qed.

Lemma deleteExpense_after_addExpense_witness :
  NoDup (map id (trackers demo_state))
  /\ (forall t e, In t (trackers demo_state) -> id t = 12 -> In e (expenses t) ->
                  expense_id e <> clock demo_world 0%nat)
  /\ trackers (deleteExpense 12 (clock demo_world 0%nat)
                 (fst (addExpense 12 "Cheese" "4.20" demo_state demo_world 0%nat)))
     = trackers demo_state.
Proof.
  assert (H1 : NoDup (map id (trackers demo_state))).
  { repeat constructor; simpl; intuition discriminate. }
  assert (H2 : forall t e, In t (trackers demo_state) -> id t = 12 -> In e (expenses t) ->
                           expense_id e <> clock demo_world 0%nat).
  { intros t e Ht _ He.
    repeat (destruct Ht as [<-|Ht]; [simpl in He; intuition (subst; discriminate)|]).
    destruct Ht. }
  split; [exact H1|]. split; [exact H2|].
  apply (deleteExpense_after_addExpense demo_state 12 "Cheese" "4.20" demo_world 0%nat H1 H2).
Defined.

(** ** The order of the list *)

Lemma StronglySorted_filter {A : Type} (R : A -> A -> Prop) (p : A -> bool) (l : list A) :
  StronglySorted R l -> StronglySorted R (filter p l).
Proof.
  induction 1 as [|x l Hs IH Hx]; simpl; [constructor|].
  destruct (p x); [|exact IH]. constructor; [exact IH|].
  rewrite Forall_forall in *. intros y Hy. apply filter_In in Hy. now apply Hx.
Qed.

Lemma StronglySorted_same_keys {A : Type} (key : A -> Z) (l l' : list A) :
  Forall2 (fun x y => key y = key x) l l' ->
  StronglySorted (key_le key) l -> StronglySorted (key_le key) l'.
Proof.
  induction 1 as [|x y l l' Hxy HF IH]; intros Hs; [constructor|].
  inversion Hs as [|? ? Hs' Hx]; subst. constructor; [now apply IH|].
  clear IH Hs Hs'. induction HF as [|x' y' l l' Hxy' HF IH]; [constructor|].
  inversion Hx as [|? ? Hxx' Hx']; subst.
  constructor; [unfold key_le in *; lia|now apply IH].
Qed.

(** Taking elements away before or after the sort is the same. *)
Lemma filter_sort_pure_commute {A : Type} (key : A -> Z) (p : A -> bool) (l : list A) :
  filter p (sort_pure (fun a b => key a - key b) l)
  = sort_pure (fun a b => key a - key b) (filter p l).
Proof.
  apply sort_pure_unique.
  - apply StronglySorted_filter, sort_pure_sorted.
  - intros k. rewrite filter_swap, filter_sort_pure. apply filter_swap.
Qed.

(** X5. A tracker that was just added is taken away again by
    [deleteTracker] with the clock reading of the addition, provided no
    tracker has this reading for its id already: what is left is the old list
    in order of date, trackers of one date in the order they had, and so the
    old list itself when it was in order of date. *)
Theorem deleteTracker_after_addTracker (st : App) (w : World) (n : nat) :
  falsy (trackerName st) = false ->
  (forall t, In t (trackers st) -> id t <> clock w n) ->
  trackers (deleteTracker (clock w n) (fst (addTracker st w n)))
  = sort_pure byDate (trackers st)
  /\ (sorted_by_date (trackers st) ->
      trackers (deleteTracker (clock w n) (fst (addTracker st w n))) = trackers st).
Proof.
  intros Hname Hfresh.
  assert (E : trackers (deleteTracker (clock w n) (fst (addTracker st w n)))
              = sort_pure byDate (trackers st)).
  { rewrite (addTracker_run st w n Hname).
    cbn [fst trackers setTrackers setTrackerName setTrackerDate deleteTracker].
    unfold deleteTracker. cbn [trackers setTrackers setTrackerName setTrackerDate].
    unfold byDate.
    rewrite (filter_sort_pure_commute (fun t => getTime (date t))).
    rewrite filter_app. cbn [filter id]. rewrite Z.eqb_refl. cbn [negb].
    rewrite app_nil_r, filter_id_when_all; [reflexivity|].
    intros t Ht. apply negb_true_iff, Z.eqb_neq. now apply Hfresh. }
  split; [exact E|].
  intros Hs. rewrite E. unfold byDate.
  apply (sort_pure_sorted_id (fun t => getTime (date t))). exact Hs.
Qed.

Lemma deleteTracker_after_addTracker_witness :
  falsy (trackerName demo_state) = false
  /\ (forall t, In t (trackers demo_state) -> id t <> clock demo_world 0%nat)
  /\ trackers (deleteTracker (clock demo_world 0%nat)
                 (fst (addTracker demo_state demo_world 0%nat)))
     = sort_pure byDate (trackers demo_state)
  /\ (sorted_by_date (trackers demo_state) ->
      trackers (deleteTracker (clock demo_world 0%nat)
                  (fst (addTracker demo_state demo_world 0%nat)))
      = trackers demo_state).
Proof.
  assert (H1 : falsy (trackerName demo_state) = false) by reflexivity.
  assert (H2 : forall t, In t (trackers demo_state) -> id t <> clock demo_world 0%nat).
  { intros t Ht. repeat (destruct Ht as [<-|Ht]; [discriminate|]). destruct Ht. }
  split; [exact H1|]. split; [exact H2|].
  apply (deleteTracker_after_addTracker demo_state demo_world 0%nat H1 H2).
Defined.

(** X6. The order of date, once there, stays: every event of the screen
    leaves a list that is in ascending order of date in that order. *)
Theorem date_order_kept (e : Event) (st : App) (w : World) (n : nat) :
  sorted_by_date (trackers st) ->
  sorted_by_date (trackers (fst (handle e st w n))).
Proof.
  intros Hs. unfold sorted_by_date in *.
  assert (Hmap : forall f : ExpenseTracker -> ExpenseTracker,
             (forall t, date (f t) = date t) ->
             StronglySorted (key_le (fun t => getTime (date t))) (map f (trackers st))).
  { intros f Hf. eapply StronglySorted_same_keys; [|exact Hs].
    clear Hs. induction (trackers st) as [|t ts IH]; constructor; [|exact IH].
    cbv beta. now rewrite Hf. }
  destruct e as [text| |selectedDate| |trackerId|trackerId|text|text
                 |trackerId titleText amountText|trackerId expenseId|trackerId];
    cbn [handle fst ret trackers setTrackerName setShowDatePicker setExpenseTitle
         setExpenseAmount]; try exact Hs.
  - destruct selectedDate; exact Hs.
  - destruct (falsy (trackerName st)) eqn:Hname.
    + unfold addTracker. rewrite Hname. exact Hs.
    + rewrite (addTracker_run st w n Hname).
      cbn [fst trackers setTrackers setTrackerName setTrackerDate].
      apply (sort_pure_sorted (fun t => getTime (date t))).
  - apply Hmap. intros t. now destruct (id t =? trackerId).
  - apply StronglySorted_filter. exact Hs.
  - unfold addExpense. destruct (falsy titleText || falsy amountText); [exact Hs|].
    unfold bind at 1.
    match goal with
    | |- context [mapM ?f ?l w n] =>
        pose proof (mapM_Forall2 f l w n) as H; destruct (mapM f l w n) as [ts n1]
    end.
    cbn [fst ret trackers setTrackers setExpenseTitle setExpenseAmount] in *.
    eapply StronglySorted_same_keys; [|exact Hs].
    eapply Forall2_impl; [|exact H]. clear. intros t t' [k ->]. cbv beta.
    now destruct (id t =? trackerId).
  - apply Hmap. intros t. now destruct (id t =? trackerId).
  - apply Hmap. intros t. now destruct (id t =? trackerId).
Qed.

Lemma date_order_kept_witness :
  sorted_by_date (trackers past_state)
  /\ sorted_by_date
       (trackers (fst (handle (PressAddExpense 1 "Bread" "2.50") past_state
                              demo_world 0%nat))).
Proof.
  assert (H : sorted_by_date (trackers past_state)).
  { repeat (apply SSorted_cons || apply SSorted_nil || apply Forall_cons
            || apply Forall_nil).
    unfold key_le, getTime. simpl. lia. }
  split; [exact H|].
  apply (date_order_kept (PressAddExpense 1 "Bread" "2.50") past_state demo_world 0%nat H).
Defined.

(** ** Totals after an addition *)

(** What [addExpense] makes of each tracker, with its reading of the clock. *)
Lemma addExpense_Forall2 (st : App) (trackerId : Z) (titleText amountText : string)
      (w : World) (n : nat) :
  falsy titleText = false -> falsy amountText = false ->
  Forall2 (fun t t' =>
             exists k,
               t' = if id t =? trackerId
                    then with_expenses
                           (expenses t ++ [newExpense (clock w k) titleText amountText]) t
                    else t)
          (trackers st) (trackers (fst (addExpense trackerId titleText amountText st w n))).
Proof.
  intros Ht Ha. unfold addExpense. rewrite Ht, Ha. cbn [orb]. unfold bind at 1.
  match goal with
  | |- context [mapM ?f ?l w n] =>
      pose proof (mapM_Forall2 f l w n) as H; destruct (mapM f l w n) as [ts n1]
  end.
  cbn [fst ret trackers setTrackers setExpenseTitle setExpenseAmount] in *.
  eapply Forall2_impl; [|exact H]. clear. intros t t' [k ->]. cbv beta.
  exists k. now destruct (id t =? trackerId).
Qed.

Lemma getTotal_snoc (t : ExpenseTracker) (e : Expense) :
  getTotal (with_expenses (expenses t ++ [e]) t)
  = Number.add (getTotal t) (ToNumber (amount e)).
Proof. unfold getTotal. cbn [expenses with_expenses]. now rewrite fold_left_app. Qed.

Lemma add_NaN_r (x : number) : Number.add x Number.NaN = Number.NaN.
Proof. now destruct x. Qed.

Lemma fold_left_NaN (es : list Expense) :
  fold_left (fun sum expense => Number.add sum (ToNumber (amount expense))) es Number.NaN
  = Number.NaN.
Proof. induction es as [|e es IH]; [reflexivity|exact IH]. Qed.

(** One amount that is NaN makes the total NaN, whatever the other amounts. *)
Lemma getTotal_NaN (t : ExpenseTracker) (e : Expense) :
  In e (expenses t) -> amount e = JSNumber Number.NaN -> getTotal t = Number.NaN.
Proof.
  unfold getTotal. generalize Number.zero.
  induction (expenses t) as [|e' es IH]; intros z Hin Ham; [destruct Hin|].
  destruct Hin as [->|Hin].
  - cbn [fold_left]. rewrite Ham. cbn [ToNumber]. rewrite add_NaN_r. apply fold_left_NaN.
  - cbn [fold_left]. now apply IH.
Qed.

(** X7. After [addExpense] with a title and an amount, the total of every
    tracker of the given id is its total of before plus [parseFloat(amount)],
    in the arithmetic of numbers; the totals of the other trackers are those
    of before. *)
Theorem addExpense_adds_to_total (st : App) (trackerId : Z)
        (titleText amountText : string) (w : World) (n : nat) :
  falsy titleText = false -> falsy amountText = false ->
  Forall2 (fun t t' =>
             getTotal t' = if id t =? trackerId
                           then Number.add (getTotal t) (parseFloat amountText)
                           else getTotal t)
          (trackers st) (trackers (fst (addExpense trackerId titleText amountText st w n))).
Proof.
  intros Ht Ha.
  eapply Forall2_impl; [|exact (addExpense_Forall2 st trackerId titleText amountText w n Ht Ha)].
  intros t t' [k ->]. cbv beta.
  destruct (id t =? trackerId); [|reflexivity]. apply getTotal_snoc.
Qed.

Lemma addExpense_adds_to_total_witness :
  falsy "Cheese" = false /\ falsy "4.20" = false
  /\ Forall2 (fun t t' =>
                getTotal t' = if id t =? 12
                              then Number.add (getTotal t) (parseFloat "4.20")
                              else getTotal t)
             (trackers demo_state)
             (trackers (fst (addExpense 12 "Cheese" "4.20" demo_state demo_world 0%nat))).
Proof.
  split; [reflexivity|]. split; [reflexivity|].
  apply (addExpense_adds_to_total demo_state 12 "Cheese" "4.20" demo_world 0%nat);
    reflexivity.
Defined.

(** X8. No amount is refused.  An amount text whose first character can
    begin neither white space nor a number is stored as NaN, and from then on
    the total of every tracker of the given id is NaN; it stays NaN whatever
    is added, and as long as that expense is in the list. *)
Theorem addExpense_NaN_total (st : App) (trackerId : Z) (titleText : string)
        (c : ascii) (s : string) (w : World) (n : nat) :
  falsy titleText = false -> starts_number c = false ->
  let st' := fst (addExpense trackerId titleText (String c s) st w n) in
  Forall (fun t' => id t' = trackerId -> getTotal t' = Number.NaN) (trackers st')
  /\ (forall t' e more, In t' (trackers st') -> id t' = trackerId ->
        getTotal (with_expenses (expenses t' ++ e :: more) t') = Number.NaN).
Proof.
  intros Ht Hc. cbv zeta.
  pose proof (addExpense_Forall2 st trackerId titleText (String c s) w n Ht eq_refl) as HF.
  assert (HN : forall t', In t' (trackers (fst (addExpense trackerId titleText (String c s)
                                                           st w n))) ->
                          id t' = trackerId ->
                          exists e, In e (expenses t') /\ amount e = JSNumber Number.NaN).
  { revert HF. generalize (trackers (fst (addExpense trackerId titleText (String c s) st w n))).
    generalize (trackers st). intros l l' HF.
    induction HF as [|t t' l l' [k Hk] _ IH]; intros t0 Hin Hid; [destruct Hin|].
    destruct Hin as [<-|Hin]; [|now apply IH].
    subst t'. destruct (id t =? trackerId) eqn:E.
    - exists (newExpense (clock w k) titleText (String c s)).
      cbn [expenses with_expenses]. split; [apply in_or_app; right; now left|].
      unfold newExpense. cbn [amount]. now rewrite parseFloat_non_numeric.
    - apply Z.eqb_neq in E. contradiction. }
  split.
  - apply Forall_forall. intros t' Hin Hid.
    destruct (HN t' Hin Hid) as (e & He & Ham). now apply (getTotal_NaN t' e).
  - intros t' e more Hin Hid. destruct (HN t' Hin Hid) as (e0 & He & Ham).
    apply (getTotal_NaN _ e0); [|exact Ham].
    cbn [expenses with_expenses]. apply in_or_app. now left.
Qed.

Lemma addExpense_NaN_total_witness :
  falsy "Hotel" = false /\ starts_number "a" = false
  /\ let st' := fst (addExpense 12 "Hotel" "abc" demo_state demo_world 0%nat) in
     Forall (fun t' => id t' = 12 -> getTotal t' = Number.NaN) (trackers st')
     /\ (forall t' e more, In t' (trackers st') -> id t' = 12 ->
           getTotal (with_expenses (expenses t' ++ e :: more) t') = Number.NaN).
Proof.
  split; [reflexivity|]. split; [reflexivity|].
  apply (addExpense_NaN_total demo_state 12 "Hotel" "a" "bc" demo_world 0%nat);
    reflexivity.
Defined.

(** ** What a reload makes of the state *)

Lemma JSON_value_storable_amount (v : JSValue) : storable_amount (JSON_value v) = true.
Proof. now destruct v as [[[]| | |]|]. Qed.

Lemma reloaded_storable (t : ExpenseTracker) :
  valid_time (getTime (date t)) -> storable (reloaded t).
Proof.
  intros Hd. split; [exact Hd|]. cbn [expenses reloaded with_expenses].
  apply Forall_map, Forall_forall. intros e _. apply JSON_value_storable_amount.
Qed.

Lemma storable_reloaded (t : ExpenseTracker) : storable t -> reloaded t = t.
Proof.
  intros [_ He]. unfold reloaded.
  replace (map _ (expenses t)) with (expenses t); [apply with_expenses_same|].
  induction He as [|e es He _ IHe]; [reflexivity|].
  cbn [map]. rewrite <- IHe, JSON_value_storable by exact He. now destruct e.
Qed.

(** X9. Whatever the amounts, as long as the dates are time values of a
    Date: loading what the save effect stored succeeds and gives the saved
    trackers with each amount as the JSON document holds it, NaN and the
    infinities as [null] and negative zero as zero, and everything else as
    it was.  The trackers loaded are of the kind that a further save and load
    gives back unchanged. *)
Theorem load_after_save_normalises (st st0 : App) (storage : AsyncStorage)
        (w : World) (n : nat) :
  Forall (fun t => valid_time (getTime (date t))) (trackers st) ->
  exists st',
    fst (loadTrackers (saveTrackers st storage) st0 w n) = Some st'
    /\ Permutation (trackers st') (map reloaded (trackers st))
    /\ Forall storable (trackers st')
    /\ Forall (fun t => reloaded t = t) (trackers st')
    /\ JSON_stringify (map reloaded (trackers st)) = JSON_stringify (trackers st).
Proof.
  intros H. unfold loadTrackers.
  rewrite getItem_saveTrackers, traverse_rehydrate_reloaded by exact H.
  unfold bind.
  pose proof (Array_sort_Permutation byProximity (map reloaded (trackers st)) w n) as HP.
  destruct (Array_sort byProximity (map reloaded (trackers st)) w n) as [sorted n1].
  cbn [fst ret trackers setTrackers] in *.
  assert (HS : Forall storable sorted).
  { apply (Permutation_Forall (Permutation_sym HP)).
    apply Forall_map. eapply Forall_impl; [|exact H].
    intros t Ht. now apply reloaded_storable. }
  eexists. split; [reflexivity|]. split; [exact HP|]. split; [exact HS|]. split.
  - eapply Forall_impl; [|exact HS]. intros t Ht. now apply storable_reloaded.
  - unfold JSON_stringify. rewrite map_map. apply map_ext. intros t.
    cbn [id name date expenses status expanded reloaded with_expenses].
    f_equal. rewrite map_map. apply map_ext. intros e.
    cbn [expense_id title amount]. f_equal.
    now destruct (amount e) as [[[]| | |]|].
Qed.

Lemma load_after_save_normalises_witness :
  Forall (fun t => valid_time (getTime (date t))) (trackers nan_state)
  /\ exists st',
    fst (loadTrackers (saveTrackers nan_state (fun _ => None)) nan_state demo_world 6%nat)
    = Some st'
    /\ Permutation (trackers st') (map reloaded (trackers nan_state))
    /\ Forall storable (trackers st')
    /\ Forall (fun t => reloaded t = t) (trackers st')
    /\ JSON_stringify (map reloaded (trackers nan_state))
       = JSON_stringify (trackers nan_state).
Proof.
  assert (H : Forall (fun t => valid_time (getTime (date t))) (trackers nan_state)).
  { apply (proj1 (Forall_map date (fun d => valid_time (getTime d)) (trackers nan_state))).
    replace (map date (trackers nan_state)) with [1700000000000]
      by (vm_compute; reflexivity).
    repeat constructor; unfold maxTime, getTime; lia. }
  split; [exact H|].
  apply (load_after_save_normalises nan_state nan_state (fun _ => None) demo_world 6%nat H).
Defined.

(** ** Identifiers *)

Lemma NoDup_keys_filter {K T : Type} (key : T -> K) (keep : T -> bool) (xs : list T) :
  NoDup (map key xs) -> NoDup (map key (filter keep xs)).
Proof.
  intros H. induction xs as [|x xs IH]; [constructor|].
  cbn [map] in H. apply NoDup_cons_iff in H. destruct H as [Hx Hxs]. cbn [filter].
  destruct (keep x); [|now apply IH]. cbn [map]. apply NoDup_cons; [|now apply IH].
  intros Hin. apply Hx. apply in_map_iff in Hin. destruct Hin as (y & <- & Hy).
  apply in_map. apply filter_In in Hy. tauto.
Qed.

Lemma ids_below_weaken (b b' : Z) (st : App) :
  b <= b' -> ids_below b st -> ids_below b' st.
Proof.
  intros Hb [Hnd HF]. split; [exact Hnd|].
  eapply Forall_impl; [|exact HF]. intros t (Hid & Hne & He).
  split; [lia|]. split; [exact Hne|].
  eapply Forall_impl; [|exact He]. intros e. cbv beta. lia.
Qed.

(** A map over the trackers that keeps the id of each. *)
Lemma ids_below_map (b : Z) (f : ExpenseTracker -> ExpenseTracker) (st : App) :
  (forall t, id (f t) = id t) ->
  (forall t, In t (trackers st) -> id t < b -> expense_ids_below b t ->
             expense_ids_below b (f t)) ->
  ids_below b st -> ids_below b (setTrackers (map f (trackers st)) st).
Proof.
  intros Hid Hf [Hnd HF]. unfold ids_below. cbn [trackers setTrackers]. split.
  - rewrite map_map. now rewrite (map_ext _ id Hid).
  - apply Forall_map. rewrite Forall_forall in *. intros t Ht.
    destruct (HF t Ht) as [Hlt He]. rewrite Hid. split; [exact Hlt|now apply Hf].
Qed.

(** What [addExpense] computes when the ids of the trackers are distinct. *)
Lemma addExpense_run (st : App) (trackerId : Z) (titleText amountText : string)
      (w : World) (n : nat) :
  falsy titleText || falsy amountText = false ->
  NoDup (map id (trackers st)) ->
  fst (addExpense trackerId titleText amountText st w n)
  = setExpenseAmount ""
      (setExpenseTitle ""
         (setTrackers
            (map (fun t => if id t =? trackerId
                           then with_expenses
                                  (expenses t
                                   ++ [newExpense (clock w n) titleText amountText]) t
                           else t)
                 (trackers st))
            st)).
Proof.
  intros Hin Hnd. unfold addExpense. rewrite Hin. unfold bind at 1.
  pose proof (addExpense_unique trackerId titleText amountText (trackers st) w n Hnd) as HU.
  destruct (mapM _ (trackers st) w n) as [ts n1]. cbn [fst ret] in *. now subst ts.
Qed.

(** X10. Identifiers are readings of the clock, and stay distinct as long
    as time passes between two events: when the ids of the state are distinct,
    those of the trackers and those of the expenses within each tracker, and
    all are earlier than the clock's reading at an event, then after the event
    they are distinct still, and none is later than that reading. *)
Theorem ids_stay_distinct (e : Event) (st : App) (w : World) (n : nat) :
  ids_below (clock w n) st ->
  ids_below (clock w n + 1) (fst (handle e st w n)).
Proof.
  intros H.
  assert (H' : ids_below (clock w n + 1) st) by (apply (ids_below_weaken (clock w n)); [lia|exact H]).
  destruct e as [text| |selectedDate| |trackerId|trackerId|text|text
                 |trackerId titleText amountText|trackerId expenseId|trackerId];
    cbn [handle fst ret]; try exact H'.
  - destruct selectedDate; exact H'.
  - destruct (falsy (trackerName st)) eqn:Hname.
    + unfold addTracker. rewrite Hname. exact H'.
    + rewrite (addTracker_run st w n Hname). cbn [fst].
      destruct H as [Hnd HF]. destruct H' as [_ HF'].
      pose proof (sort_pure_Permutation byDate
                    (trackers st ++
                     [mkTracker (clock w n) (trackerName st)
                        match trackerDate st with
                        | Some d => d
                        | None => clock w (S n)
                        end [] InProgress false])) as HP.
      unfold ids_below. cbn [trackers setTrackers setTrackerName setTrackerDate]. split.
      * apply (Permutation_NoDup (Permutation_map id (Permutation_sym HP))).
        rewrite map_app. apply NoDup_app; [exact Hnd|repeat constructor; intros []|].
        intros a Ha [<-|[]]. apply in_map_iff in Ha. destruct Ha as (t & Ht & Hin).
        rewrite Forall_forall in HF. apply HF in Hin. cbn [id] in Ht. lia.
      * apply (Permutation_Forall (Permutation_sym HP)).
        apply Forall_app. split; [exact HF'|].
        constructor; [|constructor]. cbn [id]. split; [lia|].
        split; cbn [expenses map]; constructor.
  - apply ids_below_map; [intros t; now destruct (id t =? trackerId)| |exact H'].
    intros t _ _ Ht. now destruct (id t =? trackerId).
  - destruct H' as [Hnd HF]. unfold ids_below, deleteTracker. cbn [trackers setTrackers].
    split; [now apply NoDup_keys_filter|].
    rewrite Forall_forall in *. intros t Ht. apply filter_In in Ht. now apply HF.
  - destruct (falsy titleText || falsy amountText) eqn:Hin.
    + unfold addExpense. rewrite Hin. exact H'.
    + rewrite (addExpense_run st trackerId titleText amountText w n Hin (proj1 H)).
      apply (ids_below_map (clock w n + 1)
               (fun t => if id t =? trackerId
                         then with_expenses
                                (expenses t ++ [newExpense (clock w n) titleText amountText]) t
                         else t)
               st).
      * intros t. now destruct (id t =? trackerId).
      * intros t Ht _ He. destruct (id t =? trackerId); [|exact He].
        destruct H as [_ HF]. rewrite Forall_forall in HF.
        destruct (HF t Ht) as (_ & Hne & Hlt).
        unfold expense_ids_below. cbn [expenses with_expenses]. split.
        -- rewrite map_app. apply NoDup_app; [exact Hne|repeat constructor; intros []|].
           intros a Ha [<-|[]]. apply in_map_iff in Ha. destruct Ha as (x & Hx & Hxin).
           rewrite Forall_forall in Hlt. apply Hlt in Hxin. cbn [expense_id newExpense] in Hx.
           lia.
        -- apply Forall_app. split; [apply He|].
           constructor; [|constructor]. cbn [expense_id newExpense]. lia.
      * exact H'.
  - apply ids_below_map; [intros t; now destruct (id t =? trackerId)| |exact H'].
    intros t _ _ [Hne Hlt]. destruct (id t =? trackerId); [|now split].
    unfold expense_ids_below. cbn [expenses with_expenses].
    split; [now apply NoDup_keys_filter|].
    rewrite Forall_forall in *. intros x Hx. apply filter_In in Hx. now apply Hlt.
  - apply ids_below_map; [intros t; now destruct (id t =? trackerId)| |exact H'].
    intros t _ _ Ht. now destruct (id t =? trackerId).
Qed.

Lemma demo_ids_below : ids_below (clock demo_world 0%nat) demo_state.
Proof.
  split.
  - repeat constructor; simpl; intuition discriminate.
  - repeat (apply Forall_cons || apply Forall_nil);
      (split; [reflexivity|]); split;
      repeat (apply Forall_cons || apply Forall_nil || apply NoDup_cons || apply NoDup_nil);
      simpl; try reflexivity; intuition discriminate.
Qed.

Lemma ids_stay_distinct_witness :
  ids_below (clock demo_world 0%nat) demo_state
  /\ ids_below (clock demo_world 0%nat + 1)
       (fst (handle PressAddTracker demo_state demo_world 0%nat)).
Proof.
  split; [exact demo_ids_below|].
  apply (ids_stay_distinct PressAddTracker demo_state demo_world 0%nat demo_ids_below).
Defined.

(** X11. The keys of the cards are the decimal numerals of the ids: two
    trackers have the same key exactly when they have the same id, and the
    keys of a list are distinct exactly when its ids are. *)
Theorem keyExtractor_distinct (l : list ExpenseTracker) :
  (forall a b, keyExtractor a = keyExtractor b <-> id a = id b)
  /\ (NoDup (map keyExtractor l) <-> NoDup (map id l))
  /\ Number_toString 1700000000000 = "1700000000000"%string
  /\ Number_toString 0 = "0"%string
  /\ Number_toString (-5) = "-5"%string.
Proof.
  assert (Hinj : forall x y, Number_toString x = Number_toString y -> x = y).
  { assert (Hisi : forall z,
               DecimalString.NilZero.int_of_string (Number_toString z) = Some (Z.to_int z)).
    { intros z. apply DecimalString.NilZero.isi; destruct z; cbn [Z.to_int];
        try discriminate; intros E; injection E; apply DecimalPos.Unsigned.to_uint_nonnil. }
    intros x y E. apply DecimalZ.to_int_inj.
    pose proof (Hisi x) as Hx. rewrite E, Hisi in Hx. now injection Hx. }
  split; [|split; [|repeat split]].
  - intros a b. unfold keyExtractor. split; [apply Hinj|now intros ->].
  - replace (map keyExtractor l) with (map Number_toString (map id l))
      by (now rewrite map_map).
    split; [apply NoDup_map_inv|].
    apply Finite.Injective_map_NoDup. exact Hinj.
Qed.

(* ================================================================== *)
(** * Properties of the screen *)

Lemma traverse_None {A B : Type} (f : A -> option B) (l : list A) :
  traverse f l = None <-> exists x, In x l /\ f x = None.
Proof.
  induction l as [|x l IH]; cbn [traverse].
  - split; [discriminate|]. intros (x & [] & _).
  - destruct (f x) as [y|] eqn:E.
    + destruct (traverse f l) as [ys|].
      * split; [discriminate|]. intros (z & [<-|Hz] & Hf); [congruence|].
        destruct IH as [_ IH]. discriminate IH. now exists z.
      * split; [|reflexivity]. intros _. destruct IH as [IH _].
        destruct (IH eq_refl) as (z & Hz & Hf). exists z. split; [now right|exact Hf].
    + split; [|reflexivity]. intros _. exists x. split; [now left|exact E].
Qed.

Lemma traverse_Some_map {A B C : Type} (f : A -> option B) (g : B -> C) (h : A -> C)
      (l : list A) (ys : list B) :
  (forall x y, f x = Some y -> g y = h x) ->
  traverse f l = Some ys -> map g ys = map h l.
Proof.
  intros H. revert ys. induction l as [|x l IH]; intros ys; cbn [traverse].
  - intros E. now injection E as <-.
  - destruct (f x) as [y|] eqn:E; [|discriminate].
    destruct (traverse f l) as [ys'|]; [|discriminate].
    intros E'. injection E' as <-. cbn [map]. now rewrite (H x y E), (IH ys').
Qed.

Section ScreenFacts.

Variable toFixed2 : number -> string.
Variable toDateString : Date -> string.

Lemma renderExpense_None (item : ExpenseTracker) (e : Expense) :
  renderExpense toFixed2 item e = None <-> amount e = JSNull.
Proof.
  unfold renderExpense, amount_toFixed. destruct (amount e); split; congruence.
Qed.

(** The rendering of a card throws exactly when the card is expanded and in
    progress and one of its amounts is [null]. *)
Lemma renderItem_None (st : App) (item : ExpenseTracker) :
  renderItem toFixed2 toDateString st item = None
  <-> expanded item = true /\ status item = InProgress
      /\ exists e, In e (expenses item) /\ amount e = JSNull.
Proof.
  unfold renderItem, renderDetails.
  destruct (expanded item); [|split; [discriminate|intros [H _]; discriminate H]].
  destruct (String.eqb (status item) InProgress) eqn:E.
  - apply String.eqb_eq in E.
    destruct (traverse (renderExpense toFixed2 item) (expenses item)) as [rows|] eqn:T.
    + split; [discriminate|]. intros (_ & _ & e & He & Ham).
      assert (HN : traverse (renderExpense toFixed2 item) (expenses item) = None).
      { apply traverse_None. exists e. split; [exact He|now apply renderExpense_None]. }
      congruence.
    + split; [|reflexivity]. intros _. split; [reflexivity|]. split; [exact E|].
      apply traverse_None in T. destruct T as (e & He & Hf).
      exists e. split; [exact He|now apply renderExpense_None in Hf].
  - apply String.eqb_neq in E. split; [discriminate|]. intros (_ & H & _). contradiction.
Qed.

(** The presses that a rendered card offers are those read off the fields
    of its tracker. *)
Lemma card_presses_renderItem (st : App) (item : ExpenseTracker) (card : Card) :
  renderItem toFixed2 toDateString st item = Some card ->
  card_presses card = item_presses st item.
Proof.
  unfold renderItem, renderDetails, item_presses, card_presses.
  destruct (expanded item).
  - destruct (String.eqb (status item) InProgress).
    + destruct (traverse (renderExpense toFixed2 item) (expenses item)) as [rows|] eqn:T;
        [|discriminate].
      intros E. injection E as <-.
      cbn [card_onExpand card_onDelete card_details details_onStatus details_form
           form_onAdd form_rows].
      do 4 f_equal. eapply traverse_Some_map; [|exact T].
      intros e row. unfold renderExpense.
      destruct (amount_toFixed toFixed2 (amount e)); [|discriminate].
      intros E. now injection E as <-.
    + intros E. now injection E as <-.
  - intros E. now injection E as <-.
Qed.

(** X12. A card either renders or throws: it throws exactly when it is
    expanded and in progress and one of its amounts is [null].  When it
    renders, its buttons are: expand and delete; the status button when
    expanded; and, when in progress as well, the button of the form, with
    the two texts of the state, and the bin of each expense. *)
Theorem renderItem_presses (st : App) (item : ExpenseTracker) :
  (renderItem toFixed2 toDateString st item = None
   <-> expanded item = true /\ status item = InProgress
       /\ exists e, In e (expenses item) /\ amount e = JSNull)
  /\ (forall card,
        renderItem toFixed2 toDateString st item = Some card ->
        card_presses card = item_presses st item
        /\ card_key card = keyExtractor item
        /\ card_name card = name item
        /\ card_total card = ("Total: $" ++ toFixed2 (getTotal item))%string
        /\ (card_details card = None <-> expanded item = false)).
Proof.
  split; [apply renderItem_None|].
  intros card H. split; [now apply card_presses_renderItem|].
  unfold renderItem in H.
  destruct (expanded item).
  - destruct (renderDetails toFixed2 st item) as [d|]; [|discriminate].
    injection H as <-. cbn. repeat split; discriminate.
  - injection H as <-. cbn. repeat split.
Qed.

End ScreenFacts.

Section SessionFacts.

Variable toFixed2 : number -> string.
Variable toDateString : Date -> string.

(** What it takes for a press to be on the screen. *)
Lemma offered_press (st : App) (e : Event) :
  match e with
  | PressExpand _ | PressDeleteTracker _ | PressAddExpense _ _ _
  | PressDeleteExpense _ _ | PressStatus _ => True
  | _ => False
  end ->
  offered toFixed2 toDateString st e ->
  exists item, In item (trackers st) /\ In e (item_presses st item).
Proof.
  intros He H.
  destruct e; try destruct He; destruct H as (item & card & Hin & Hr & Hp);
    exists item; (split; [exact Hin|]);
    now rewrite <- (card_presses_renderItem toFixed2 toDateString st item card Hr).
Qed.

Lemma offered_PressAddExpense (st : App) (trackerId : Z) (titleText amountText : string) :
  offered toFixed2 toDateString st (PressAddExpense trackerId titleText amountText) ->
  titleText = expenseTitle st /\ amountText = expenseAmount st
  /\ exists item,
      In item (trackers st) /\ id item = trackerId
      /\ expanded item = true /\ status item = InProgress.
Proof.
  intros H. apply offered_press in H; [|exact I].
  destruct H as (item & Hin & Hp). unfold item_presses in Hp.
  destruct Hp as [Hp|[Hp|Hp]]; try discriminate Hp.
  destruct (expanded item) eqn:Ex; [|destruct Hp].
  destruct Hp as [Hp|Hp]; [discriminate Hp|].
  destruct (String.eqb (status item) InProgress) eqn:Es; [|destruct Hp].
  apply String.eqb_eq in Es. destruct Hp as [Hp|Hp].
  - injection Hp as <- <- <-. split; [reflexivity|]. split; [reflexivity|].
    exists item. auto.
  - apply in_map_iff in Hp. destruct Hp as (x & Hx & _). discriminate Hx.
Qed.

Lemma offered_PressDeleteExpense (st : App) (trackerId expenseId : Z) :
  offered toFixed2 toDateString st (PressDeleteExpense trackerId expenseId) ->
  exists item,
    In item (trackers st) /\ id item = trackerId
    /\ expanded item = true /\ status item = InProgress
    /\ exists e, In e (expenses item) /\ expense_id e = expenseId.
Proof.
  intros H. apply offered_press in H; [|exact I].
  destruct H as (item & Hin & Hp). unfold item_presses in Hp.
  destruct Hp as [Hp|[Hp|Hp]]; try discriminate Hp.
  destruct (expanded item) eqn:Ex; [|destruct Hp].
  destruct Hp as [Hp|Hp]; [discriminate Hp|].
  destruct (String.eqb (status item) InProgress) eqn:Es; [|destruct Hp].
  apply String.eqb_eq in Es. destruct Hp as [Hp|Hp]; [discriminate Hp|].
  apply in_map_iff in Hp. destruct Hp as (x & Hx & Hxin). injection Hx as <- <-.
  exists item. repeat split; try assumption. now exists x.
Qed.

(** Every event keeps the amounts numbers. *)
Lemma numbers_only_handle (e : Event) (st : App) (w : World) (n : nat) :
  numbers_only st -> numbers_only (fst (handle e st w n)).
Proof.
  intros H. unfold numbers_only in *.
  assert (Hmap : forall f : ExpenseTracker -> ExpenseTracker,
             (forall t, Forall (fun e => amount e <> JSNull) (expenses t) ->
                        Forall (fun e => amount e <> JSNull) (expenses (f t))) ->
             Forall (fun t => Forall (fun e => amount e <> JSNull) (expenses t))
                    (map f (trackers st))).
  { intros f Hf. apply Forall_map. eapply Forall_impl; [|exact H]. exact Hf. }
  destruct e as [text| |selectedDate| |trackerId|trackerId|text|text
                 |trackerId titleText amountText|trackerId expenseId|trackerId];
    cbn [handle fst ret trackers setTrackerName setShowDatePicker setExpenseTitle
         setExpenseAmount]; try exact H.
  - destruct selectedDate; exact H.
  - destruct (falsy (trackerName st)) eqn:Hname.
    + unfold addTracker. rewrite Hname. exact H.
    + rewrite (addTracker_run st w n Hname).
      cbn [fst trackers setTrackers setTrackerName setTrackerDate].
      apply (Permutation_Forall (Permutation_sym (sort_pure_Permutation byDate _))).
      apply Forall_app. split; [exact H|]. repeat constructor.
  - apply Hmap. intros t Ht. now destruct (id t =? trackerId).
  - apply Forall_forall. intros t Ht. apply filter_In in Ht.
    rewrite Forall_forall in H. now apply H.
  - destruct (falsy titleText) eqn:Ht;
      [unfold addExpense; rewrite Ht; exact H|].
    destruct (falsy amountText) eqn:Ha;
      [unfold addExpense; rewrite Ht, Ha; exact H|].
    eapply Forall2_Forall;
      [exact (addExpense_Forall2 st trackerId titleText amountText w n Ht Ha)| |exact H].
    intros t t' [k ->] Hold. cbv beta in *.
    destruct (id t =? trackerId); [|exact Hold].
    cbn [expenses with_expenses]. apply Forall_app. split; [exact Hold|].
    repeat constructor. discriminate.
  - apply Hmap. intros t Ht. destruct (id t =? trackerId); [|exact Ht].
    cbn [expenses with_expenses]. apply Forall_forall. intros x Hx.
    apply filter_In in Hx. rewrite Forall_forall in Ht. now apply Ht.
  - apply Hmap. intros t Ht. now destruct (id t =? trackerId).
Qed.

(** X13. The handlers store numbers only: from a state whose amounts are
    all numbers, every event leads to such a state, and every card of it
    renders.  (A [null] amount comes from the store alone.) *)
Theorem numbers_only_kept (e : Event) (st : App) (w : World) (n : nat) :
  numbers_only st ->
  numbers_only (fst (handle e st w n))
  /\ forall item,
       In item (trackers (fst (handle e st w n))) ->
       exists card,
         renderItem toFixed2 toDateString (fst (handle e st w n)) item = Some card.
Proof.
  intros H. pose proof (numbers_only_handle e st w n H) as H'.
  split; [exact H'|]. intros item Hin.
  destruct (renderItem toFixed2 toDateString (fst (handle e st w n)) item) as [card|] eqn:E;
    [now exists card|].
  apply renderItem_None in E. destruct E as (_ & _ & x & Hx & Hnull).
  unfold numbers_only in H'. rewrite Forall_forall in H'.
  specialize (H' item Hin). rewrite Forall_forall in H'. now apply H' in Hx.
Qed.

End SessionFacts.

Lemma demo_NoDup : NoDup (map id (trackers demo_state)).
Proof. repeat constructor; simpl; intuition discriminate. Qed.

Lemma demo_numbers_only : numbers_only demo_state.
Proof.
  repeat (apply Forall_cons || apply Forall_nil); discriminate.
Qed.

Lemma numbers_only_kept_witness :
  numbers_only demo_state
  /\ numbers_only (fst (handle (PressAddExpense 11 "Hotel" "abc") demo_state
                               demo_world 0%nat))
  /\ forall item,
       In item (trackers (fst (handle (PressAddExpense 11 "Hotel" "abc") demo_state
                                      demo_world 0%nat))) ->
       exists card,
         renderItem demo_toFixed2 demo_toDateString
                    (fst (handle (PressAddExpense 11 "Hotel" "abc") demo_state
                                 demo_world 0%nat)) item
         = Some card.
Proof.
  split; [exact demo_numbers_only|].
  apply (numbers_only_kept demo_toFixed2 demo_toDateString
           (PressAddExpense 11 "Hotel" "abc") demo_state demo_world 0%nat
           demo_numbers_only).
Defined.

(** ** What the screen lets the user do *)

Lemma NoDup_id_unique (l : list ExpenseTracker) (a b : ExpenseTracker) :
  NoDup (map id l) -> In a l -> In b l -> id a = id b -> a = b.
Proof.
  induction l as [|x l IH]; intros Hnd Ha Hb E; [destruct Ha|].
  cbn [map] in Hnd. inversion Hnd as [|? ? Hx Hl]; subst.
  destruct Ha as [<-|Ha], Hb as [<-|Hb]; [reflexivity| | |now apply IH].
  - exfalso. apply Hx. rewrite E. now apply in_map.
  - exfalso. apply Hx. rewrite <- E. now apply in_map.
Qed.

Lemma Forall2_In_l {A B : Type} (R : A -> B -> Prop) (l : list A) (l' : list B) (x : A) :
  Forall2 R l l' -> In x l -> exists y, In y l' /\ R x y.
Proof.
  induction 1 as [|a b l l' Hab _ IH]; intros Hin; [destruct Hin|].
  destruct Hin as [<-|Hin]; [exists b; split; [now left|exact Hab]|].
  destruct (IH Hin) as (y & Hy & Hr). exists y. split; [now right|exact Hr].
Qed.

Section Sessions.

Variable toFixed2 : number -> string.
Variable toDateString : Date -> string.

(** X14. A tracker that is not in progress is closed: with distinct
    tracker ids, no event that the screen offers, other than the deletion of
    that tracker and its own status button, changes anything of it but
    whether it is expanded; its expenses, in particular, can neither be added
    to nor deleted. *)
Theorem cleared_tracker_frozen (st : App) (e : Event) (t : ExpenseTracker)
        (w : World) (n : nat) :
  NoDup (map id (trackers st)) ->
  In t (trackers st) -> status t <> InProgress ->
  offered toFixed2 toDateString st e ->
  e <> PressDeleteTracker (id t) -> e <> PressStatus (id t) ->
  exists t',
    In t' (trackers (fst (handle e st w n)))
    /\ t' = with_expanded (expanded t') t.
Proof.
  intros Hnd Hin Hst Hoff Hdel Hsta.
  assert (Hsame : In t (trackers (fst (handle e st w n))) ->
                  exists t', In t' (trackers (fst (handle e st w n)))
                             /\ t' = with_expanded (expanded t') t).
  { intros H. exists t. split; [exact H|]. symmetry. apply with_expanded_same. }
  assert (Hother : forall trackerId,
             (exists item, In item (trackers st) /\ id item = trackerId
                           /\ status item = InProgress) ->
             (id t =? trackerId) = false).
  { intros trackerId (item & Hitem & Hid & Hs). apply Z.eqb_neq. intros E.
    apply Hst. rewrite (NoDup_id_unique (trackers st) t item Hnd Hin Hitem); [exact Hs|].
    now rewrite Hid. }
  destruct e as [text| |selectedDate| |trackerId|trackerId|text|text
                 |trackerId titleText amountText|trackerId expenseId|trackerId].
  - apply Hsame. exact Hin.
  - apply Hsame. exact Hin.
  - apply Hsame. cbn [handle fst ret]. destruct selectedDate; exact Hin.
  - apply Hsame. cbn [handle]. destruct (falsy (trackerName st)) eqn:Hname.
    + unfold addTracker. rewrite Hname. exact Hin.
    + rewrite (addTracker_run st w n Hname).
      cbn [fst trackers setTrackers setTrackerName setTrackerDate].
      apply (Permutation_in _ (Permutation_sym (sort_pure_Permutation byDate _))).
      apply in_or_app. now left.
  - cbn [handle fst ret toggleExpand trackers setTrackers].
    exists (if id t =? trackerId then with_expanded (negb (expanded t)) t else t).
    split; [apply (in_map (fun tracker => if id tracker =? trackerId
                                          then with_expanded (negb (expanded tracker)) tracker
                                          else tracker)); exact Hin|].
    destruct (id t =? trackerId); [reflexivity|]. symmetry. apply with_expanded_same.
  - apply Hsame. cbn [handle fst ret deleteTracker trackers setTrackers].
    apply filter_In. split; [exact Hin|]. apply negb_true_iff, Z.eqb_neq.
    intros E. apply Hdel. now rewrite E.
  - apply Hsame. exact Hin.
  - apply Hsame. exact Hin.
  - apply Hsame. cbn [handle].
    destruct (falsy titleText || falsy amountText) eqn:Hempty.
    + unfold addExpense. rewrite Hempty. exact Hin.
    + rewrite (addExpense_run st trackerId titleText amountText w n Hempty Hnd).
      cbn [trackers setTrackers setExpenseTitle setExpenseAmount].
      apply offered_PressAddExpense in Hoff.
      destruct Hoff as (_ & _ & item & Hitem & Hid & _ & Hs).
      assert (E : (id t =? trackerId) = false) by (apply Hother; now exists item).
      apply in_map_iff. exists t. rewrite E. split; [reflexivity|exact Hin].
  - apply Hsame. cbn [handle fst ret deleteExpense trackers setTrackers].
    apply offered_PressDeleteExpense in Hoff.
    destruct Hoff as (item & Hitem & Hid & _ & Hs & _).
    assert (E : (id t =? trackerId) = false) by (apply Hother; now exists item).
    apply in_map_iff. exists t. rewrite E. split; [reflexivity|exact Hin].
  - apply Hsame. cbn [handle fst ret toggleStatus trackers setTrackers].
    assert (E : (id t =? trackerId) = false).
    { apply Z.eqb_neq. intros E. apply Hsta. now rewrite E. }
    apply in_map_iff. exists t. rewrite E. split; [reflexivity|exact Hin].
Qed.

End Sessions.

Lemma cleared_tracker_frozen_witness :
  NoDup (map id (trackers typed_state))
  /\ In (mkTracker 12 "Food" 1600000000000
           [mkExpense 21 "Bread" (JSNumber (parseFloat "10.50"));
            mkExpense 22 "Milk" (JSNumber (parseFloat "5"))] Cleared true)
        (trackers typed_state)
  /\ Cleared <> InProgress
  /\ offered demo_toFixed2 demo_toDateString typed_state
             (PressAddExpense 11 "Hotel" "abc")
  /\ exists t',
      In t' (trackers (fst (handle (PressAddExpense 11 "Hotel" "abc") typed_state
                                   demo_world 0%nat)))
      /\ t' = with_expanded (expanded t')
                (mkTracker 12 "Food" 1600000000000
                   [mkExpense 21 "Bread" (JSNumber (parseFloat "10.50"));
                    mkExpense 22 "Milk" (JSNumber (parseFloat "5"))] Cleared true).
Proof.
  assert (H1 : NoDup (map id (trackers typed_state))) by exact demo_NoDup.
  assert (H2 : In (mkTracker 12 "Food" 1600000000000
                     [mkExpense 21 "Bread" (JSNumber (parseFloat "10.50"));
                      mkExpense 22 "Milk" (JSNumber (parseFloat "5"))] Cleared true)
                  (trackers typed_state)) by (right; left; reflexivity).
  assert (H3 : Cleared <> InProgress) by discriminate.
  assert (H4 : offered demo_toFixed2 demo_toDateString typed_state
                 (PressAddExpense 11 "Hotel" "abc")).
  { eexists. eexists. split; [left; reflexivity|]. split; [reflexivity|].
    right. right. right. left. reflexivity. }
  split; [exact H1|]. split; [exact H2|]. split; [exact H3|]. split; [exact H4|].
  apply (cleared_tracker_frozen demo_toFixed2 demo_toDateString typed_state
           (PressAddExpense 11 "Hotel" "abc") _ demo_world 0%nat H1 H2 H3 H4); discriminate.
Defined.

(** ** A restart after an amount that is no number *)

Section Restart.

Variable toFixed2 : number -> string.
Variable toDateString : Date -> string.

(** X15. An amount that JSON cannot write breaks the next start.  When the
    form's button is pressed with a title and an amount text that parses to
    NaN or to an infinity, the state that is saved loads back, at the next
    start, with a tracker of the given id whose card does not render: it is
    stored expanded and in progress, and the amount of its new expense is
    [null]. *)
Theorem null_amount_breaks_restart (st st0 : App) (trackerId : Z)
        (titleText amountText : string) (storage : AsyncStorage)
        (w : World) (n m : nat) :
  offered toFixed2 toDateString st (PressAddExpense trackerId titleText amountText) ->
  falsy titleText = false -> falsy amountText = false ->
  JSON_number (parseFloat amountText) = JSNull ->
  Forall (fun t => valid_time (getTime (date t))) (trackers st) ->
  exists st2 item,
    fst (loadTrackers
           (saveTrackers (fst (handle (PressAddExpense trackerId titleText amountText)
                                      st w n)) storage)
           st0 w m) = Some st2
    /\ In item (trackers st2) /\ id item = trackerId
    /\ renderItem toFixed2 toDateString st2 item = None.
Proof.
  intros Hoff Ht Ha Hnull Hdates. cbn [handle].
  apply offered_PressAddExpense in Hoff.
  destruct Hoff as (_ & _ & item0 & Hin0 & Hid & Hex & Hs).
  pose proof (addExpense_Forall2 st trackerId titleText amountText w n Ht Ha) as HF.
  assert (Hdates1 : Forall (fun t => valid_time (getTime (date t)))
                           (trackers (fst (addExpense trackerId titleText amountText
                                                      st w n)))).
  { eapply Forall2_Forall; [exact HF| |exact Hdates].
    intros t t' [k ->] Hv. cbv beta in *. now destruct (id t =? trackerId). }
  destruct (Forall2_In_l _ _ _ item0 HF Hin0) as (item1 & Hin1 & k & E1).
  rewrite (proj2 (Z.eqb_eq _ _) Hid) in E1.
  unfold loadTrackers.
  rewrite getItem_saveTrackers, traverse_rehydrate_reloaded by exact Hdates1.
  unfold bind.
  match goal with
  | |- context [Array_sort byProximity ?l w m] =>
      pose proof (Array_sort_Permutation byProximity l w m) as HP;
      destruct (Array_sort byProximity l w m) as [sorted n1]
  end.
  cbn [fst ret] in *.
  exists (setTrackers sorted st0), (reloaded item1).
  split; [reflexivity|]. split.
  - cbn [trackers setTrackers].
    apply (Permutation_in _ (Permutation_sym HP)). now apply in_map.
  - split; [subst item1; exact Hid|].
    apply renderItem_None. subst item1.
    cbn [expanded status expenses reloaded with_expenses].
    split; [exact Hex|]. split; [exact Hs|].
    exists (mkExpense (clock w k) titleText JSNull). split; [|reflexivity].
    rewrite map_app. apply in_or_app. right. cbn [map newExpense expense_id title amount
      JSON_value]. rewrite Hnull. now left.
Qed.

(** ** The chosen date *)

Lemma trackerDate_handle (e : Event) (st : App) (w : World) (n : nat) :
  trackerDate st <> None -> trackerDate (fst (handle e st w n)) <> None.
Proof.
  intros H.
  destruct e as [text| |selectedDate| |trackerId|trackerId|text|text
                 |trackerId titleText amountText|trackerId expenseId|trackerId];
    cbn [handle fst ret]; try exact H.
  - destruct selectedDate; [discriminate|exact H].
  - destruct (falsy (trackerName st)) eqn:Hname.
    + unfold addTracker. rewrite Hname. exact H.
    + rewrite (addTracker_run st w n Hname). discriminate.
  - unfold addExpense. destruct (falsy titleText || falsy amountText); [exact H|].
    unfold bind. destruct (mapM _ (trackers st) w n) as [ts n1]. exact H.
Qed.

(** X16. The date of the form is never empty.  The component starts with
    the date of the clock, and neither a render nor an event of a session
    empties it: the button always shows a date and never the text
    "Select Date", the picker opens on that date, and a render reads the
    clock exactly once, for the argument of [useState] at line 25, and never
    for the fallback of the picker. *)
Theorem trackerDate_never_null (w : World) (n0 : nat) (st0 : App) (n : nat) (st : App) :
  trackerDate st0 <> None ->
  session_from toFixed2 toDateString w n0 st0 n st ->
  exists d,
    trackerDate st = Some d
    /\ forall k,
         render toDateString st w k
         = (mkHeader (trackerName st) (toDateString d)
                     (if showDatePicker st then Some d else None), S k).
Proof.
  intros H0 Hs.
  assert (H : trackerDate st <> None).
  { induction Hs as [|n st _ IH|n st e _ IH _];
      [exact H0|exact IH|now apply trackerDate_handle]. }
  destruct (trackerDate st) as [d|] eqn:E; [|contradiction].
  exists d. split; [reflexivity|]. intros k.
  unfold render, renderHeader, bind, ret, new_Date, Date_now. rewrite E.
  now destruct (showDatePicker st).
Qed.

(** ** Pressing a button twice *)

(** X17. The forms send what was typed once.  After the button of the
    expense form is pressed, every such button of the new screen does nothing
    until a text is typed again; and a second press on "Add Tracker" does
    nothing either. *)
Theorem form_submits_once (st : App) (trackerId : Z) (titleText amountText : string)
        (w : World) (n : nat) :
  offered toFixed2 toDateString st (PressAddExpense trackerId titleText amountText) ->
  (forall trackerId' titleText' amountText' m,
     offered toFixed2 toDateString
             (fst (handle (PressAddExpense trackerId titleText amountText) st w n))
             (PressAddExpense trackerId' titleText' amountText') ->
     handle (PressAddExpense trackerId' titleText' amountText')
            (fst (handle (PressAddExpense trackerId titleText amountText) st w n)) w m
     = (fst (handle (PressAddExpense trackerId titleText amountText) st w n), m))
  /\ (forall m,
        handle PressAddTracker (fst (handle PressAddTracker st w n)) w m
        = (fst (handle PressAddTracker st w n), m)).
Proof.
  intros Hoff. apply offered_PressAddExpense in Hoff. destruct Hoff as (Et & Ea & _).
  split.
  - intros trackerId' titleText' amountText' m Hoff'.
    apply offered_PressAddExpense in Hoff'. destruct Hoff' as (Et' & Ea' & _).
    cbn [handle] in *. revert Et' Ea'.
    unfold addExpense at 1 2 3.
    destruct (falsy titleText || falsy amountText) eqn:Hempty.
    + cbn [fst ret]. intros -> ->. rewrite <- Et, <- Ea.
      unfold addExpense. now rewrite Hempty.
    + unfold bind. destruct (mapM _ (trackers st) w n) as [ts n1].
      cbn [fst ret expenseTitle expenseAmount setExpenseTitle setExpenseAmount].
      intros -> _. reflexivity.
  - intros m. cbn [handle]. destruct (falsy (trackerName st)) eqn:Hname.
    + unfold addTracker at 2 3. rewrite Hname. cbn [fst ret].
      unfold addTracker. now rewrite Hname.
    + rewrite (addTracker_run st w n Hname). reflexivity.
Qed.

End Restart.

(** ** Trackers of one date *)

(** X18. Trackers of one date stay in the order in which they were added:
    after [addTracker], the trackers of any date are those of before, in
    their order, followed by the new tracker when it has that date. *)
Theorem addTracker_keeps_equal_dates (st : App) (w : World) (n : nat) (d : Z) :
  falsy (trackerName st) = false ->
  exists newTracker,
    id newTracker = clock w n
    /\ List.length (trackers (fst (addTracker st w n))) = S (List.length (trackers st))
    /\ filter (fun t => getTime (date t) =? d) (trackers (fst (addTracker st w n)))
       = filter (fun t => getTime (date t) =? d) (trackers st)
         ++ (if getTime (date newTracker) =? d then [newTracker] else []).
Proof.
  intros Hname. rewrite (addTracker_run st w n Hname).
  cbn [fst trackers setTrackers setTrackerName setTrackerDate].
  exists (mkTracker (clock w n) (trackerName st)
            (match trackerDate st with Some d0 => d0 | None => clock w (S n) end)
            [] InProgress false).
  split; [reflexivity|]. split.
  - rewrite (Permutation_length (sort_pure_Permutation _ _)), length_app.
    cbn [List.length]. lia.
  - unfold byDate. rewrite (filter_sort_pure (fun t => getTime (date t))).
    rewrite filter_app. reflexivity.
Qed.

(** ** The examples *)

Lemma typed_offered :
  offered demo_toFixed2 demo_toDateString typed_state (PressAddExpense 11 "Hotel" "abc").
Proof.
  eexists. eexists. split; [left; reflexivity|]. split; [reflexivity|].
  right. right. right. left. reflexivity.
Qed.

Lemma typed_dates :
  Forall (fun t => valid_time (getTime (date t))) (trackers typed_state).
Proof.
  repeat (apply Forall_cons || apply Forall_nil);
    unfold valid_time, maxTime, getTime; simpl; lia.
Qed.

Lemma null_amount_breaks_restart_witness :
  offered demo_toFixed2 demo_toDateString typed_state (PressAddExpense 11 "Hotel" "abc")
  /\ falsy "Hotel" = false /\ falsy "abc" = false
  /\ JSON_number (parseFloat "abc") = JSNull
  /\ Forall (fun t => valid_time (getTime (date t))) (trackers typed_state)
  /\ exists st2 item,
      fst (loadTrackers
             (saveTrackers (fst (handle (PressAddExpense 11 "Hotel" "abc")
                                        typed_state demo_world 0%nat))
                           (fun _ => None))
             typed_state demo_world 1%nat) = Some st2
      /\ In item (trackers st2) /\ id item = 11
      /\ renderItem demo_toFixed2 demo_toDateString st2 item = None.
Proof.
  assert (H : JSON_number (parseFloat "abc") = JSNull) by (vm_compute; reflexivity).
  split; [exact typed_offered|]. split; [reflexivity|]. split; [reflexivity|].
  split; [exact H|]. split; [exact typed_dates|].
  apply (null_amount_breaks_restart demo_toFixed2 demo_toDateString typed_state typed_state
           11 "Hotel" "abc" (fun _ => None) demo_world 0%nat 1%nat
           typed_offered eq_refl eq_refl H typed_dates).
Defined.

Lemma trackerDate_never_null_witness :
  trackerDate (fst (initial demo_world 0%nat)) <> None
  /\ session_from demo_toFixed2 demo_toDateString demo_world 1%nat
                  (fst (initial demo_world 0%nat)) 2%nat
                  (setShowDatePicker true (fst (initial demo_world 0%nat)))
  /\ exists d,
      trackerDate (setShowDatePicker true (fst (initial demo_world 0%nat))) = Some d
      /\ forall k,
           render demo_toDateString
                  (setShowDatePicker true (fst (initial demo_world 0%nat)))
                  demo_world k
           = (mkHeader (trackerName (setShowDatePicker true (fst (initial demo_world 0%nat))))
                       (demo_toDateString d)
                       (if showDatePicker
                             (setShowDatePicker true (fst (initial demo_world 0%nat)))
                        then Some d else None), S k).
Proof.
  assert (H1 : trackerDate (fst (initial demo_world 0%nat)) <> None) by discriminate.
  assert (H2 : session_from demo_toFixed2 demo_toDateString demo_world 1%nat
                 (fst (initial demo_world 0%nat)) 2%nat
                 (setShowDatePicker true (fst (initial demo_world 0%nat)))).
  { exact (session_render demo_toFixed2 demo_toDateString demo_world 1%nat
             (fst (initial demo_world 0%nat)) 1%nat
             (setShowDatePicker true (fst (initial demo_world 0%nat)))
             (session_event demo_toFixed2 demo_toDateString demo_world 1%nat
                (fst (initial demo_world 0%nat)) 1%nat (fst (initial demo_world 0%nat))
                PressDate
                (session_start demo_toFixed2 demo_toDateString demo_world 1%nat
                   (fst (initial demo_world 0%nat)))
                I)). }
  split; [exact H1|]. split; [exact H2|].
  apply (trackerDate_never_null demo_toFixed2 demo_toDateString demo_world 1%nat
           (fst (initial demo_world 0%nat)) 2%nat
           (setShowDatePicker true (fst (initial demo_world 0%nat))) H1 H2).
Defined.

Lemma form_submits_once_witness :
  offered demo_toFixed2 demo_toDateString typed_state (PressAddExpense 11 "Hotel" "abc")
  /\ (forall trackerId' titleText' amountText' m,
        offered demo_toFixed2 demo_toDateString
                (fst (handle (PressAddExpense 11 "Hotel" "abc") typed_state
                             demo_world 0%nat))
                (PressAddExpense trackerId' titleText' amountText') ->
        handle (PressAddExpense trackerId' titleText' amountText')
               (fst (handle (PressAddExpense 11 "Hotel" "abc") typed_state
                            demo_world 0%nat)) demo_world m
        = (fst (handle (PressAddExpense 11 "Hotel" "abc") typed_state demo_world 0%nat),
           m))
  /\ (forall m,
        handle PressAddTracker (fst (handle PressAddTracker typed_state demo_world 0%nat))
               demo_world m
        = (fst (handle PressAddTracker typed_state demo_world 0%nat), m)).
Proof.
  split; [exact typed_offered|].
  apply (form_submits_once demo_toFixed2 demo_toDateString typed_state 11 "Hotel" "abc"
           demo_world 0%nat typed_offered).
Defined.

Lemma addTracker_keeps_equal_dates_witness :
  falsy (trackerName demo_state) = false
  /\ exists newTracker,
      id newTracker = clock demo_world 0%nat
      /\ List.length (trackers (fst (addTracker demo_state demo_world 0%nat)))
         = S (List.length (trackers demo_state))
      /\ filter (fun t => getTime (date t) =? 1700000000001)
                (trackers (fst (addTracker demo_state demo_world 0%nat)))
         = filter (fun t => getTime (date t) =? 1700000000001) (trackers demo_state)
           ++ (if getTime (date newTracker) =? 1700000000001 then [newTracker] else []).
Proof.
  split; [reflexivity|].
  apply (addTracker_keeps_equal_dates demo_state demo_world 0%nat 1700000000001).
  reflexivity.
Defined.

(** ** The load and the state it finds *)

(** X19. The load replaces the list.  With a document in the store, the
    list that [loadTrackers] sets, and the readings of the clock it takes, do
    not depend on the state it finds: trackers added before the load
    completes are not kept, and the other cells of the state are not
    touched. *)
Theorem loadTrackers_replaces_list (storage : AsyncStorage) (st0 st1 : App)
        (w : World) (n : nat) :
  getItem "trackers" storage <> None ->
  snd (loadTrackers storage st0 w n) = snd (loadTrackers storage st1 w n)
  /\ match fst (loadTrackers storage st0 w n), fst (loadTrackers storage st1 w n) with
     | Some st0', Some st1' =>
         trackers st0' = trackers st1'
         /\ st0' = setTrackers (trackers st0') st0
         /\ st1' = setTrackers (trackers st1') st1
     | None, None => True
     | _, _ => False
     end.
Proof.
  intros H. unfold loadTrackers.
  destruct (getItem "trackers" storage) as [stored|]; [|contradiction].
  destruct (traverse rehydrate stored) as [parsed|]; [|split; [reflexivity|exact I]].
  unfold bind. destruct (Array_sort byProximity parsed w n) as [sorted n1].
  cbn [fst snd ret trackers setTrackers]. repeat split.
Qed.

Lemma loadTrackers_replaces_list_witness :
  getItem "trackers" (saveTrackers past_state (fun _ => None)) <> None
  /\ snd (loadTrackers (saveTrackers past_state (fun _ => None)) demo_state demo_world 0%nat)
     = snd (loadTrackers (saveTrackers past_state (fun _ => None)) typed_state
                         demo_world 0%nat)
  /\ match fst (loadTrackers (saveTrackers past_state (fun _ => None)) demo_state
                             demo_world 0%nat),
           fst (loadTrackers (saveTrackers past_state (fun _ => None)) typed_state
                             demo_world 0%nat) with
     | Some st0', Some st1' =>
         trackers st0' = trackers st1'
         /\ st0' = setTrackers (trackers st0') demo_state
         /\ st1' = setTrackers (trackers st1') typed_state
     | None, None => True
     | _, _ => False
     end.
Proof.
  assert (H : getItem "trackers" (saveTrackers past_state (fun _ => None)) <> None)
    by discriminate.
  split; [exact H|].
  apply (loadTrackers_replaces_list (saveTrackers past_state (fun _ => None))
           demo_state typed_state demo_world 0%nat H).
Defined.
